(** * Training Neural Networks (intro-to-pytorch, Part 3)

    A shallow embedding of the code cells of
    [intro-to-pytorch/Part 3 - Training Neural Networks (Exercises).ipynb].

    The notebook file carries unresolved merge markers.  The [HEAD] side is
    the one with a complete training pass (the other side leaves
    [loss = ] unfinished), so the cells below are those of [HEAD].

    Everything numerical is done by PyTorch.  The framework is therefore an
    interface ([Torch]) whose operations the cells call; the cells themselves
    are state transformers over the kernel's variables, and every framework
    call is recorded in a log so that the order of calls can be stated. *)

From Stdlib Require Import String Ascii.
From Stdlib Require Import List ZArith QArith Bool Arith Lia Permutation.
Import ListNotations.
Close Scope Q_scope.

Set Implicit Arguments.

(* ===================================================================== *)
(** ** torch.utils.data: Dataset, BatchSampler, DataLoader               *)
(* ===================================================================== *)

Section DataLoading.

Variables Sample Batch RNG : Type.

(** A map-style dataset: [__getitem__] and [__len__]. *)
Record Dataset := mkDataset {
getitem : nat -> Sample;
ds_len : nat
}.

(** [DataLoader(dataset, batch_size=..., shuffle=...)]. *)
Record DataLoader := mkDataLoader {
dataset : Dataset;
batch_size : nat;
shuffle : bool
}.

(** [torch.randperm] on the generator state, and the default collate
  function (a stack of the samples). *)
Variable randperm : RNG -> nat -> list nat * RNG.
Variable collate : list Sample -> Batch.

(** [BatchSampler.__iter__] with [drop_last=False]: indices are appended
  to [batch]; a full batch is yielded and [batch] is emptied; what is
  left at the end is yielded when it is not empty.  [batch] is kept
  newest first. *)
Fixpoint batch_sampler (n : nat) (batch : list nat) (idx : list nat)
: list (list nat) :=
match idx with
| [] => match batch with [] => [] | _ => [rev batch] end
| i :: idx' =>
    let batch' := i :: batch in
    if Nat.eqb (length batch') n
    then rev batch' :: batch_sampler n [] idx'
    else batch_sampler n batch' idx'
end.

(** The sampler: a fresh permutation when [shuffle=True], else [0..len-1]. *)
Definition sampler (dl : DataLoader) (g : RNG) : list nat * RNG :=
if shuffle dl then randperm g (ds_len (dataset dl))
else (seq 0 (ds_len (dataset dl)), g).

(** [iter(dataloader)] run to exhaustion: the batches of one pass. *)
Definition loader_iter (dl : DataLoader) (g : RNG) : list Batch * RNG :=
let (idx, g') := sampler dl g in
(map (fun b => collate (map (getitem (dataset dl)) b))
     (batch_sampler (batch_size dl) [] idx), g').

(** [len(dataloader)] with [drop_last=False]. *)
Definition loader_len (dl : DataLoader) : nat :=
(ds_len (dataset dl) + batch_size dl - 1) / batch_size dl.

End DataLoading.

Arguments mkDataset {Sample} _ _.
Arguments getitem {Sample} _ _.
Arguments ds_len {Sample} _.
Arguments mkDataLoader {Sample} _ _ _.
Arguments dataset {Sample} _.
Arguments batch_size {Sample} _.
Arguments shuffle {Sample} _.

(* ===================================================================== *)
(** ** torch.nn, torchvision: what the notebook instantiates             *)
(* ===================================================================== *)

(** The modules handed to [nn.Sequential]. *)
Inductive Layer :=
| Linear (in_features out_features : Z)
| ReLU
| LogSoftmax (dim : Z).

(** The loss classes the notebook instantiates. *)
Inductive Criterion :=
| CrossEntropyLoss
| NLLLoss.

(** The members of [transforms.Compose([...])]. *)
Inductive Transform :=
| ToTensor
| Normalize (mean std : list Q).

(** The framework.  Tensors carry their autograd graph, so a loss knows the
    gradient that [backward] will produce for it. *)
Class Torch := {
  Tensor : Type;
  Labels : Type;
  Sample : Type;
  Weights : Type;              (* the values of [model.parameters()] *)
  Grad : Type;                 (* the values of their [.grad] *)
  PyFloat : Type;
  RNG : Type;

  mnist : bool -> list Transform -> Dataset Sample;  (* the data on disk *)
  randperm : RNG -> nat -> list nat * RNG;
  collate : list Sample -> Tensor * Labels;
  init_weights : list Layer -> RNG -> Weights * RNG;

  shape0 : Tensor -> Z;                          (* [t.shape[0]] *)
  tensor_view : Tensor -> list Z -> Tensor;      (* [t.view(...)] *)
  tensor_resize_ : Tensor -> list Z -> Tensor;   (* [t.resize_(...)] *)
  linear : Weights -> nat -> Tensor -> Tensor;   (* the i-th [nn.Linear] *)
  relu : Tensor -> Tensor;
  log_softmax : Z -> Tensor -> Tensor;
  nll_loss : Tensor -> Labels -> Tensor;

  loss_grad : Tensor -> Grad;                    (* what [backward] computes *)
  loss_item : Tensor -> PyFloat;                 (* [loss.item()] *)
  grad_zero : Grad;
  grad_add : Grad -> Grad -> Grad;
  zero_grad_to_none : bool;                      (* [set_to_none] default *)
  sgd_update : Q -> Weights -> Grad -> Weights;

  float_of_Z : Z -> PyFloat;
  float_add : PyFloat -> PyFloat -> PyFloat;
  float_div : PyFloat -> PyFloat -> PyFloat
}.

(* ===================================================================== *)
(** ** The notebook kernel                                               *)
(* ===================================================================== *)

Section Kernel.

Context {T : Torch}.

(** What a [print] statement of the notebook writes. *)
Inductive Printed :=
| PTensor (t : Tensor)
| PWeights (w : Weights)
| PGrad (g : option Grad)
| PTrainingLoss (v : PyFloat).

(** One entry of the log per framework call (and per [print]), with the
  values the call saw. *)
Inductive Call :=
| CallMNIST (root : string) (download train : bool) (tf : list Transform)
| CallDataLoader (batch_size : nat) (shuffle : bool)
| CallSequential (layers : list Layer)
| CallSGD (lr : Q)
| CallIter
| CallView (images : Tensor) (size : list Z)
| CallResize (images : Tensor) (size : list Z)
| CallZeroGrad
| CallForward (w : Weights) (images : Tensor)
| CallCriterion (c : Criterion) (output : Tensor) (labels : Labels)
| CallBackward (loss : Tensor)
| CallStep (w : Weights) (g : option Grad)
| CallItem (loss : Tensor)
| CallPrint (p : Printed).

(** The mutable objects the cells share: the parameters of the object
  bound to [model] (the optimizer holds the very same parameters, as
  every [optim.SGD(model.parameters(), ...)] of the notebook is built
  for the model bound at that time), their [.grad], the global
  generator, the variable [running_loss], and the log. *)
Record Kernel := mkKernel {
weights : Weights;
grad : option Grad;
rng : RNG;
running_loss : PyFloat;
calls : list Call
}.

(** The statements a cell is made of.  The cells are written once against
  this interface and read in two ways below: as the run in which
  nothing raises, and as the run in which a framework call, a division
  or an exhausted iterator may raise. *)
Class Script (M : Type -> Type) := {
ret : forall {A}, A -> M A;
bind : forall {A B}, M A -> (A -> M B) -> M B;
datasets_MNIST : string -> bool -> bool -> list Transform ->
                 M (Dataset Sample);
new_DataLoader : Dataset Sample -> nat -> bool -> M (DataLoader Sample);
nn_Sequential : list Layer -> M (list Layer);
optim_SGD : Q -> M Q;
iterate : DataLoader Sample -> M (list (Tensor * Labels));
view : Tensor -> list Z -> M Tensor;
resize_ : Tensor -> list Z -> M Tensor;
zero_grad : M unit;
forward : list Layer -> Tensor -> M Tensor;
apply_criterion : Criterion -> Tensor -> Labels -> M Tensor;
backward : Tensor -> M unit;
step : Q -> M unit;
item : Tensor -> M PyFloat;
read_weights : M Weights;
read_grad : M (option Grad);
set_running_loss : PyFloat -> M unit;
add_running_loss : PyFloat -> M unit;
get_running_loss : M PyFloat;
(* [running_loss / len(trainloader)]: Python's [/] *)
divide : PyFloat -> nat -> M PyFloat;
(* [next] on an iterator that has nothing to give; the argument is what
   stands for it where nothing raises *)
stop_iteration : forall {A}, A -> M A;
print : Printed -> M unit
}.

End Kernel.

Declare Scope cell_scope.
Delimit Scope cell_scope with cell.
Notation "x <- c ;; f" := (bind c (fun x => f))
  (at level 61, c at next level, right associativity) : cell_scope.
Notation "c ;; f" := (bind c (fun _ => f))
  (at level 61, right associativity) : cell_scope.
Local Open Scope cell_scope.

(* ===================================================================== *)
(** ** The code cells                                                    *)
(* ===================================================================== *)

Section Cells.

Context {T : Torch} {M : Type -> Type} {S : Script M}.

(** [for x in l: body]. *)
Fixpoint for_each {A} (l : list A) (body : A -> M unit) : M unit :=
match l with
| [] => ret tt
| x :: l' => body x ;; for_each l' body
end.

(** [iter(trainloader)] and the first batch, if there is one; a cell
  that finds none raises [StopIteration] and runs no further
  statement. *)
Definition next_iter (trainloader : DataLoader Sample)
: M (option (Tensor * Labels)) :=
batches <- iterate trainloader ;; ret (hd_error batches).

(** The data cell. *)
Definition data_cell : M (DataLoader Sample) :=
let transform := [ToTensor;
                  Normalize [1 # 2; 1 # 2; 1 # 2] [1 # 2; 1 # 2; 1 # 2]]%Q in
trainset <- datasets_MNIST "~/.pytorch/MNIST_data/" true true transform ;;
new_DataLoader trainset 64 true.

(** What a loss cell leaves bound: the value handed to the criterion with
  the name the cell gives it, and the loss. *)
Record LossCell := mkLossCell {
model : list Layer;
criterion : Criterion;
passed_name : string;
passed : Tensor;
loss : Tensor
}.

(** The first loss cell: a stack that ends in [nn.Linear(64, 10)] and
  [nn.CrossEntropyLoss]. *)
Definition cross_entropy_cell (trainloader : DataLoader Sample)
: M (option LossCell) :=
model <- nn_Sequential [Linear 784 128; ReLU; Linear 128 64; ReLU;
                        Linear 64 10] ;;
let criterion := CrossEntropyLoss in
batch <- next_iter trainloader ;;
match batch with
| None => stop_iteration None
| Some (images, labels) =>
    images <- view images [shape0 images; (-1)%Z] ;;
    logits <- forward model images ;;
    loss <- apply_criterion criterion logits labels ;;
    print (PTensor loss) ;;
    ret (Some (mkLossCell model criterion "logits" logits loss))
end.

(** The exercise cell: the stack ends in [nn.LogSoftmax(dim=1)], the loss
  is [nn.NLLLoss], the output is called [logps]. *)
Definition nll_exercise_cell (trainloader : DataLoader Sample)
: M (option LossCell) :=
model <- nn_Sequential [Linear 784 128; ReLU; Linear 128 64; ReLU;
                        Linear 64 10; LogSoftmax 1] ;;
let criterion := NLLLoss in
batch <- next_iter trainloader ;;
match batch with
| None => stop_iteration None
| Some (images, labels) =>
    images <- view images [shape0 images; (-1)%Z] ;;
    logps <- forward model images ;;
    loss <- apply_criterion criterion logps labels ;;
    print (PTensor loss) ;;
    ret (Some (mkLossCell model criterion "logps" logps loss))
end.

(** The cell of "Loss and Autograd together": the same stack and loss,
  the output is called [logits]. *)
Definition autograd_loss_cell (trainloader : DataLoader Sample)
: M (option LossCell) :=
model <- nn_Sequential [Linear 784 128; ReLU; Linear 128 64; ReLU;
                        Linear 64 10; LogSoftmax 1] ;;
let criterion := NLLLoss in
batch <- next_iter trainloader ;;
match batch with
| None => stop_iteration None
| Some (images, labels) =>
    images <- view images [shape0 images; (-1)%Z] ;;
    logits <- forward model images ;;
    loss <- apply_criterion criterion logits labels ;;
    ret (Some (mkLossCell model criterion "logits" logits loss))
end.

(** [print(model[0].weight.grad); loss.backward(); print(...grad)]. *)
Definition backward_cell (loss : Tensor) : M unit :=
g <- read_grad ;;
print (PGrad g) ;;
backward loss ;;
g <- read_grad ;;
print (PGrad g).

(** [optimizer = optim.SGD(model.parameters(), lr=0.01)]. *)
Definition optimizer_cell : M Q := optim_SGD (1 # 100)%Q.

(** One learning step up to the backward pass. *)
Definition single_step_cell (model : list Layer) (criterion : Criterion)
(trainloader : DataLoader Sample) : M (option Tensor) :=
w <- read_weights ;;
print (PWeights w) ;;
batch <- next_iter trainloader ;;
match batch with
| None => stop_iteration None
| Some (images, labels) =>
    images <- resize_ images [64; 784]%Z ;;
    zero_grad ;;
    output <- forward model images ;;
    loss <- apply_criterion criterion output labels ;;
    backward loss ;;
    g <- read_grad ;;
    print (PGrad g) ;;
    ret (Some loss)
end.

(** [optimizer.step(); print(model[0].weight)]. *)
Definition update_cell (optimizer : Q) : M unit :=
step optimizer ;;
w <- read_weights ;;
print (PWeights w).

(** The body of the inner loop of the training cell. *)
Definition training_pass (model : list Layer) (criterion : Criterion)
(optimizer : Q) (batch : Tensor * Labels) : M unit :=
let (images, labels) := batch in
images <- view images [shape0 images; (-1)%Z] ;;
zero_grad ;;
output <- forward model images ;;
loss <- apply_criterion criterion output labels ;;
backward loss ;;
step optimizer ;;
v <- item loss ;;
add_running_loss v.

(** The body of the outer loop: [running_loss = 0], the inner loop, and
  its [else] branch (the loop has no [break], so it always runs). *)
Definition epoch (model : list Layer) (criterion : Criterion)
(optimizer : Q) (trainloader : DataLoader Sample) (e : nat) : M unit :=
set_running_loss (float_of_Z 0) ;;
batches <- iterate trainloader ;;
for_each batches (training_pass model criterion optimizer) ;;
running_loss <- get_running_loss ;;
mean <- divide running_loss (loader_len trainloader) ;;
print (PTrainingLoss mean).

(** The cell of "Training for real". *)
Definition training_cell (trainloader : DataLoader Sample) : M unit :=
model <- nn_Sequential [Linear 784 128; ReLU; Linear 128 64; ReLU;
                        Linear 64 10; LogSoftmax 1] ;;
let criterion := NLLLoss in
optimizer <- optim_SGD (3 # 1000)%Q ;;
let epochs := 5 in
for_each (seq 0 epochs) (epoch model criterion optimizer trainloader).

(** The cells of the single learning step in the order the notebook runs
  them: loss, backward pass, optimizer, one step up to the backward
  pass, update. *)
Definition single_step_demo (trainloader : DataLoader Sample)
: M (option Tensor) :=
r <- autograd_loss_cell trainloader ;;
match r with
| None => ret None
| Some r =>
    backward_cell (loss r) ;;
    optimizer <- optimizer_cell ;;
    l <- single_step_cell (model r) (criterion r) trainloader ;;
    match l with
    | None => ret None
    | Some l => update_cell optimizer ;; ret (Some l)
    end
end.

End Cells.

(* ===================================================================== *)
(** ** Running the cells: nothing raises                                 *)
(* ===================================================================== *)

Section Direct.

Context {T : Torch}.

Definition Cell (A : Type) : Type := Kernel -> A * Kernel.

Definition exec {A} (c : Cell A) (k : Kernel) : Kernel := snd (c k).
Definition eval {A} (c : Cell A) (k : Kernel) : A := fst (c k).

Definition logged (c : Call) (k : Kernel) : Kernel :=
mkKernel (weights k) (grad k) (rng k) (running_loss k) (calls k ++ [c]).

(** [nn.Sequential.forward]: the layers in order; [i] counts the
  [nn.Linear] layers passed so far. *)
Fixpoint sequential (layers : list Layer) (w : Weights) (i : nat)
(x : Tensor) : Tensor :=
match layers with
| [] => x
| Linear _ _ :: ls => sequential ls w (S i) (linear w i x)
| ReLU :: ls => sequential ls w i (relu x)
| LogSoftmax d :: ls => sequential ls w i (log_softmax d x)
end.

(** The loss a criterion returns; [nn.CrossEntropyLoss] "combines
  [nn.LogSoftmax()] and [nn.NLLLoss()] in one single class". *)
Definition criterion_value (c : Criterion) (output : Tensor)
(labels : Labels) : Tensor :=
match c with
| CrossEntropyLoss => nll_loss (log_softmax 1 output) labels
| NLLLoss => nll_loss output labels
end.

(** [optimizer.zero_grad()]: a [.grad] that is [None] stays so; one that
  holds a tensor is zeroed in place, or reset to [None] where that is
  the framework's default. *)
Definition zeroed (g : option Grad) : option Grad :=
match g with
| None => None
| Some _ => if zero_grad_to_none then None else Some grad_zero
end.

(** [loss.backward()]: "the gradients are accumulated"; a [.grad] that is
  [None] receives the gradient itself. *)
Definition accumulated (g : option Grad) (d : Grad) : option Grad :=
match g with
| None => Some d
| Some g0 => Some (grad_add g0 d)
end.

(** [optimizer.step()]: parameters whose [.grad] is [None] are skipped. *)
Definition stepped (lr : Q) (w : Weights) (g : option Grad) : Weights :=
match g with
| None => w
| Some d => sgd_update lr w d
end.

#[export] Instance direct : Script Cell := {
ret _ a := fun k => (a, k);
bind _ _ c f := fun k => let (a, k') := c k in f a k';
datasets_MNIST root download train tf :=
  fun k => (mnist train tf, logged (CallMNIST root download train tf) k);
new_DataLoader ds n sh :=
  fun k => (mkDataLoader ds n sh, logged (CallDataLoader n sh) k);
(* a new module: fresh parameters whose [.grad] is [None] *)
nn_Sequential layers :=
  fun k => let (w, g) := init_weights layers (rng k) in
           (layers, mkKernel w None g (running_loss k)
                             (calls k ++ [CallSequential layers]));
optim_SGD lr := fun k => (lr, logged (CallSGD lr) k);
(* one pass of [iter(trainloader)] *)
iterate trainloader :=
  fun k => let (bs, g) := loader_iter randperm collate trainloader (rng k) in
           (bs, mkKernel (weights k) (grad k) g (running_loss k)
                         (calls k ++ [CallIter]));
view images size :=
  fun k => (tensor_view images size, logged (CallView images size) k);
resize_ images size :=
  fun k => (tensor_resize_ images size, logged (CallResize images size) k);
zero_grad :=
  fun k => (tt, mkKernel (weights k) (zeroed (grad k)) (rng k)
                         (running_loss k) (calls k ++ [CallZeroGrad]));
forward model images :=
  fun k => (sequential model (weights k) 0 images,
            logged (CallForward (weights k) images) k);
apply_criterion c output labels :=
  fun k => (criterion_value c output labels,
            logged (CallCriterion c output labels) k);
backward loss :=
  fun k => (tt, mkKernel (weights k)
                         (accumulated (grad k) (loss_grad loss))
                         (rng k) (running_loss k)
                         (calls k ++ [CallBackward loss]));
step lr :=
  fun k => (tt, mkKernel (stepped lr (weights k) (grad k)) (grad k)
                         (rng k) (running_loss k)
                         (calls k ++ [CallStep (weights k) (grad k)]));
item loss := fun k => (loss_item loss, logged (CallItem loss) k);
read_weights := fun k => (weights k, k);
read_grad := fun k => (grad k, k);
set_running_loss v :=
  fun k => (tt, mkKernel (weights k) (grad k) (rng k) v (calls k));
add_running_loss v :=
  fun k => (tt, mkKernel (weights k) (grad k) (rng k)
                         (float_add (running_loss k) v) (calls k));
get_running_loss := fun k => (running_loss k, k);
(* the quotient; a run in which nothing raises has a divisor that is
   not 0 and a batch wherever one is asked for *)
divide v n := fun k => (float_div v (float_of_Z (Z.of_nat n)), k);
stop_iteration _ a := fun k => (a, k);
print p := fun k => (tt, logged (CallPrint p) k)
}.

End Direct.

(* ===================================================================== *)
(** ** Running the cells: what may raise                                 *)
(* ===================================================================== *)

(** Which framework calls raise, and what. *)
Class Failures {T : Torch} := {
  Exn : Type;
  raises : Call -> option Exn
}.

Section Fallible.

Context {T : Torch} {F : Failures}.

(** What ends a cell: an exception of a framework call, or one of the two
  that Python itself raises in these cells, at the division of
  [running_loss] by [len(trainloader)] and at [next] on an iterator
  without a batch. *)
Inductive Raised :=
| FrameworkError (e : Exn)
| ZeroDivisionError
| StopIteration.

(** The outcome is the exception that left the cell, or its value. *)
Definition Fallible (A : Type) : Type := Kernel -> (Raised + A) * Kernel.

(** A statement that calls the framework: the call is logged; when it
  raises nothing else happens. *)
Definition attempt {A} (c : Kernel -> Call) (body : Cell A) : Fallible A :=
fun k => match raises (c k) with
         | Some e => (inl (FrameworkError e), logged (c k) k)
         | None => let (a, k') := body k in (inr a, k')
         end.

(** A statement that does not. *)
Definition pure_stmt {A} (body : Cell A) : Fallible A :=
fun k => let (a, k') := body k in (inr a, k').

#[export] Instance fallible : Script Fallible := {
ret _ a := fun k => (inr a, k);
(* no cell has a handler: an exception ends the cell *)
bind _ _ c f := fun k => match c k with
                         | (inl e, k') => (inl e, k')
                         | (inr a, k') => f a k'
                         end;
datasets_MNIST root download train tf :=
  attempt (fun _ => CallMNIST root download train tf)
          (datasets_MNIST (M := Cell) root download train tf);
new_DataLoader ds n sh :=
  attempt (fun _ => CallDataLoader n sh) (new_DataLoader (M := Cell) ds n sh);
nn_Sequential layers :=
  attempt (fun _ => CallSequential layers) (nn_Sequential (M := Cell) layers);
optim_SGD lr := attempt (fun _ => CallSGD lr) (optim_SGD (M := Cell) lr);
iterate trainloader :=
  attempt (fun _ => CallIter) (iterate (M := Cell) trainloader);
view images size :=
  attempt (fun _ => CallView images size) (view (M := Cell) images size);
resize_ images size :=
  attempt (fun _ => CallResize images size) (resize_ (M := Cell) images size);
zero_grad := attempt (fun _ => CallZeroGrad) (zero_grad (M := Cell));
forward model images :=
  attempt (fun k => CallForward (weights k) images)
          (forward (M := Cell) model images);
apply_criterion c output labels :=
  attempt (fun _ => CallCriterion c output labels)
          (apply_criterion (M := Cell) c output labels);
backward loss :=
  attempt (fun _ => CallBackward loss) (backward (M := Cell) loss);
step lr :=
  attempt (fun k => CallStep (weights k) (grad k)) (step (M := Cell) lr);
item loss := attempt (fun _ => CallItem loss) (item (M := Cell) loss);
read_weights := pure_stmt (read_weights (M := Cell));
read_grad := pure_stmt (read_grad (M := Cell));
set_running_loss v := pure_stmt (set_running_loss (M := Cell) v);
add_running_loss v := pure_stmt (add_running_loss (M := Cell) v);
get_running_loss := pure_stmt (get_running_loss (M := Cell));
divide v n :=
  fun k => if Nat.eqb n 0 then (inl ZeroDivisionError, k)
           else (inr (float_div v (float_of_Z (Z.of_nat n))), k);
stop_iteration _ a := fun k => (inl StopIteration, k);
print p := attempt (fun _ => CallPrint p) (print (M := Cell) p)
}.

End Fallible.

(* ===================================================================== *)
(** ** Reading the log                                                   *)
(* ===================================================================== *)

Section Traces.

Context {T : Torch}.

(** What was called, without the values. *)
Inductive Kind :=
| KMNIST | KDataLoader | KSequential | KSGD | KIter | KView | KResize
| KZeroGrad | KForward | KCriterion | KBackward | KStep | KItem | KPrint.

Definition kind (c : Call) : Kind :=
match c with
| CallMNIST _ _ _ _ => KMNIST
| CallDataLoader _ _ => KDataLoader
| CallSequential _ => KSequential
| CallSGD _ => KSGD
| CallIter => KIter
| CallView _ _ => KView
| CallResize _ _ => KResize
| CallZeroGrad => KZeroGrad
| CallForward _ _ => KForward
| CallCriterion _ _ _ => KCriterion
| CallBackward _ => KBackward
| CallStep _ _ => KStep
| CallItem _ => KItem
| CallPrint _ => KPrint
end.

(** The four steps of a learning step. *)
Definition learning_step (k : Kind) : bool :=
match k with
| KForward | KCriterion | KBackward | KStep => true
| _ => false
end.

(** The images of a batch as the training pass flattens them, and the
  loss of the batch under parameters [w]. *)
Definition flat (images : Tensor) : Tensor :=
tensor_view images [shape0 images; (-1)%Z].

Definition pass_loss (model : list Layer) (criterion : Criterion)
(w : Weights) (batch : Tensor * Labels) : Tensor :=
criterion_value criterion (sequential model w 0 (flat (fst batch)))
                (snd batch).

(** The calls of one training pass on [batch], started with parameters
  [w] whose [.grad] is [g]. *)
Definition pass_calls (model : list Layer) (criterion : Criterion)
(w : Weights) (g : option Grad) (batch : Tensor * Labels) : list Call :=
let loss := pass_loss model criterion w batch in
[CallView (fst batch) [shape0 (fst batch); (-1)%Z];
 CallZeroGrad;
 CallForward w (flat (fst batch));
 CallCriterion criterion (sequential model w 0 (flat (fst batch)))
               (snd batch);
 CallBackward loss;
 CallStep w (accumulated (zeroed g) (loss_grad loss));
 CallItem loss].

(** The calls of the inner loop over [batches]: one pass per batch, in
  the order of the batches. *)
Inductive passes (model : list Layer) (criterion : Criterion)
: list (Tensor * Labels) -> list Call -> Prop :=
| passes_nil : passes model criterion [] []
| passes_cons w g batch batches t :
  passes model criterion batches t ->
  passes model criterion (batch :: batches)
         (pass_calls model criterion w g batch ++ t).

(** The values of [loss.item()] in a log, in order. *)
Fixpoint items (t : list Call) : list PyFloat :=
match t with
| [] => []
| CallItem l :: t' => loss_item l :: items t'
| _ :: t' => items t'
end.

(** The sum of [loss.item()] over a log, built as [running_loss] is
  (from 0, adding on the right), divided by [len(trainloader)]. *)
Definition mean_loss (trainloader : DataLoader Sample) (t : list Call)
: PyFloat :=
float_div (fold_left float_add (items t) (float_of_Z 0))
          (float_of_Z (Z.of_nat (loader_len trainloader))).

(** The parameters after the calls of a log, started from [w]: each
  [optimizer.step()] moves them by the gradient it found, nothing else
  does. *)
Fixpoint weights_after (lr : Q) (t : list Call) (w : Weights) : Weights :=
match t with
| [] => w
| CallStep _ g :: t' => weights_after lr t' (stepped lr w g)
| _ :: t' => weights_after lr t' w
end.

(** A log agrees with parameters [w] when every forward pass and every
  update in it sees the parameters the last update before it left
  ([w] when there is none). *)
Fixpoint consistent (lr : Q) (w : Weights) (t : list Call) : Prop :=
match t with
| [] => True
| CallForward w' _ :: t' => w' = w /\ consistent lr w t'
| CallStep w' g :: t' => w' = w /\ consistent lr (stepped lr w g) t'
| _ :: t' => consistent lr w t'
end.

(** The calls of one epoch whose passes logged [t]: the iterator is
  created, the passes run, the training loss is printed. *)
Definition epoch_calls (trainloader : DataLoader Sample) (t : list Call)
: list Call :=
CallIter :: t ++ [CallPrint (PTrainingLoss (mean_loss trainloader t))].

(** The calls of [n] epochs: [n] such blocks, each with one pass per batch
  of an iteration of the loader. *)
Definition epochs_log (model : list Layer) (criterion : Criterion)
(trainloader : DataLoader Sample) (n : nat) (t : list Call) : Prop :=
exists segs : list (list Call),
  length segs = n /\
  t = concat (map (epoch_calls trainloader) segs) /\
  Forall (fun seg => exists g,
            passes model criterion
                   (fst (loader_iter randperm collate trainloader g)) seg)
         segs.

End Traces.


(* ===================================================================== *)
(** ** torch.Tensor: sizes, [view], [resize_], [stack]                   *)
(* ===================================================================== *)

(** Contiguous tensors: a size and the elements in row-major order.  This
    is what the two flattening idioms of the notebook, [images.view(
    images.shape[0], -1)] and [images.resize_(64, 784)], act on. *)
Module Shapes.

Section Tensors.

Variable X : Type.

Record tensor := mkTensor {
size : list Z;
elements : list X
}.

Definition numel_of (sz : list Z) : Z := fold_right Z.mul 1%Z sz.

Definition numel (t : tensor) : Z := Z.of_nat (length (elements t)).

(** [t.shape[0]]; [None] stands for the [IndexError] on a tensor
without dimensions. *)
Definition shape_0 (t : tensor) : option Z := hd_error (size t).

(** The size [view] computes from its arguments for [n] elements: at
most one argument is [-1] and is inferred, no other is negative,
and the sizes multiply to [n].  [None] stands for the
[RuntimeError]. *)
Definition infer_size (args : list Z) (n : Z) : option (list Z) :=
if existsb (fun d => Z.ltb d (-1)) args then None
else
let known := numel_of (filter (fun d => negb (Z.eqb d (-1))) args) in
match count_occ Z.eq_dec args (-1)%Z with
| 0 => if Z.eqb n known then Some args else None
| 1 => if Z.ltb 0 known && Z.eqb (n mod known) 0
       then Some (map (fun d => if Z.eqb d (-1) then (n / known)%Z
                                else d) args)
       else None
| _ => None
end.

(** [t.view(...)]: the same elements under the new size. *)
Definition view_as (t : tensor) (args : list Z) : option tensor :=
match infer_size args (numel t) with
| Some sz => Some (mkTensor sz (elements t))
| None => None
end.

(** [images.view(images.shape[0], -1)]. *)
Definition flatten_rows (images : tensor) : option tensor :=
match shape_0 images with
| Some n => view_as images [n; (-1)%Z]
| None => None
end.

(** [t.resize_(...)]: the first elements are kept when the new size
holds fewer; when it holds more, the storage grows and what the new
elements hold is not specified ([fill]). *)
Definition resize_to (fill : nat -> X) (t : tensor) (sz : list Z) : tensor :=
let n := Z.to_nat (numel_of sz) in
mkTensor sz (firstn n (elements t)
           ++ map fill (seq (length (elements t))
                            (n - length (elements t)))).

(** [torch.stack]: what the default collate function does with the
images of a batch. *)
Definition stack_of (ts : list tensor) : tensor :=
mkTensor (Z.of_nat (length ts)
        :: match ts with t :: _ => size t | [] => [] end)
       (concat (map elements ts)).

(** An MNIST image as [transforms.ToTensor] gives it: 1 x 28 x 28. *)
Definition mnist_image (t : tensor) : Prop :=
size t = [1; 28; 28]%Z /\ length (elements t) = 784.

End Tensors.

Arguments mkTensor {X} _ _.
Arguments size {X} _.
Arguments elements {X} _.

End Shapes.

(* ===================================================================== *)
(** ** The text of the code cells                                        *)
(* ===================================================================== *)

Module Notebook.

Local Open Scope string_scope.

(** The double quote. *)
Definition dq : string := String (ascii_of_nat 34) EmptyString.

Definition data_source : list string :=
[ "import torch";
  "from torch import nn";
  "import torch.nn.functional as F";
  "from torchvision import datasets, transforms";
  EmptyString;
  "# Define a transform to normalize the data";
  "transform = transforms.Compose([transforms.ToTensor(),";
  "                                transforms.Normalize((0.5, 0.5, 0.5), (0.5, 0.5, 0.5)),";
  "                              ])";
  "# Download and load the training data";
  "trainset = datasets.MNIST('~/.pytorch/MNIST_data/', download=True, train=True, transform=transform)";
  "trainloader = torch.utils.data.DataLoader(trainset, batch_size=64, shuffle=True)" ].

Definition cross_entropy_source : list string :=
[ "# Build a feed-forward network";
  "model = nn.Sequential(nn.Linear(784, 128),";
  "                      nn.ReLU(),";
  "                      nn.Linear(128, 64),";
  "                      nn.ReLU(),";
  "                      nn.Linear(64, 10))";
  EmptyString;
  "# Define the loss";
  "criterion = nn.CrossEntropyLoss()";
  EmptyString;
  "# Get our data";
  "images, labels = next(iter(trainloader))";
  "# Flatten images";
  "images = images.view(images.shape[0], -1)";
  EmptyString;
  "# Forward pass, get our logits";
  "logits = model(images)";
  "# Calculate the loss with the logits and the labels";
  "loss = criterion(logits, labels)";
  EmptyString;
  "print(loss)" ].

Definition nll_exercise_source : list string :=
[ "# TODO: Build a feed-forward network";
  "model = nn.Sequential(nn.Linear(784, 128),";
  "                      nn.ReLU(),";
  "                      nn.Linear(128, 64),";
  "                      nn.ReLU(),";
  "                      nn.Linear(64, 10),";
  "                      nn.LogSoftmax(dim=1))";
  EmptyString;
  "# TODO: Define the loss";
  "criterion = nn.NLLLoss()";
  EmptyString;
  "### Run this to check your work";
  "# Get our data";
  "images, labels = next(iter(trainloader))";
  "# Flatten images";
  "images = images.view(images.shape[0], -1)";
  EmptyString;
  "# Forward pass, get our logits, like a log probability";
  "logps = model(images)";
  "# Calculate the loss with the logits and the labels";
  "loss = criterion(logps, labels)";
  EmptyString;
  "print(loss)" ].

Definition randn_source : list string :=
[ "x = torch.randn(2,2, requires_grad=True)";
  "print(x)" ].

Definition square_source : list string :=
[ "y = x**2";
  "print(y)" ].

Definition grad_fn_source : list string :=
[ "## grad_fn shows the function that generated this variable";
  "print(y.grad_fn)" ].

Definition mean_source : list string :=
[ "z = y.mean()";
  "print(z)" ].

Definition no_grad_yet_source : list string :=
[ "print(x.grad)" ].

Definition backward_demo_source : list string :=
[ "z.backward()";
  "print(x.grad)";
  "print(x/2)" ].

Definition autograd_loss_source : list string :=
[ "# Build a feed-forward network";
  "model = nn.Sequential(nn.Linear(784, 128),";
  "                      nn.ReLU(),";
  "                      nn.Linear(128, 64),";
  "                      nn.ReLU(),";
  "                      nn.Linear(64, 10),";
  "                      nn.LogSoftmax(dim=1))";
  EmptyString;
  "criterion = nn.NLLLoss()";
  "images, labels = next(iter(trainloader))";
  "images = images.view(images.shape[0], -1)";
  EmptyString;
  "logits = model(images)";
  "loss = criterion(logits, labels)" ].

Definition backward_source : list string :=
[ "print('Before backward pass: \n', model[0].weight.grad)";
  EmptyString;
  "loss.backward()";
  EmptyString;
  "print('After backward pass: \n', model[0].weight.grad)" ].

Definition optimizer_source : list string :=
[ "from torch import optim";
  EmptyString;
  "# Optimizers require the parameters to optimize and a learning rate";
  "optimizer = optim.SGD(model.parameters(), lr=0.01)" ].

Definition single_step_source : list string :=
[ "print('Initial weights - ', model[0].weight)";
  EmptyString;
  "# Start by getting our images and labels, from our train loader";
  "images, labels = next(iter(trainloader))";
  "# flatten them";
  "images.resize_(64, 784)";
  EmptyString;
  "# Clear the gradients, do this because PyTorch by default accumulates gradients";
  "optimizer.zero_grad()";
  EmptyString;
  "# Forward pass, then backward pass, then update weights";
  "output = model.forward(images)";
  "loss = criterion(output, labels)";
  "loss.backward()";
  "print('Gradient -', model[0].weight.grad)" ].

Definition update_source : list string :=
[ "# Take an update step and few the new weights";
  "optimizer.step()";
  "print('Updated weights - ', model[0].weight)" ].

Definition training_source : list string :=
[ "## Your solution here";
  EmptyString;
  "model = nn.Sequential(nn.Linear(784, 128),";
  "                      nn.ReLU(),";
  "                      nn.Linear(128, 64),";
  "                      nn.ReLU(),";
  "                      nn.Linear(64, 10),";
  "                      nn.LogSoftmax(dim=1))";
  EmptyString;
  "criterion = nn.NLLLoss()";
  "optimizer = optim.SGD(model.parameters(), lr=0.003)";
  EmptyString;
  "epochs = 5";
  "for e in range(epochs):";
  "    running_loss = 0";
  "    for images, labels in trainloader:";
  "        # Flatten MNIST images into a 784 long vector";
  "        images = images.view(images.shape[0], -1)";
  "    ";
  "        # TODO: Training pass";
  "        optimizer.zero_grad()";
  "        ";
  "        output = model.forward(images)";
  "        loss = criterion(output, labels)";
  "        loss.backward()";
  "        optimizer.step()";
  "        ";
  "        running_loss += loss.item()";
  "    else:";
  ("        print(f" ++ dq ++ "Training loss: {running_loss/len(trainloader)}" ++ dq ++ ")") ].

Definition prediction_source : list string :=
[ "%matplotlib inline";
  "import helper";
  EmptyString;
  "images, labels = next(iter(trainloader))";
  EmptyString;
  "img = images[0].view(1, 784)";
  "# Turn off gradients to speed up this part";
  "with torch.no_grad():";
  "    logits = model.forward(img)";
  EmptyString;
  "# Output of the network are logits, need to take softmax for probabilities";
  "ps = F.softmax(logits, dim=1)";
  "helper.view_classify(img.view(1, 28, 28), ps)" ].

(** The lines of code cells on the other side of the merge markers. *)
Definition other_side : list string :=
[ "# TODO: Build a feed-forward network";
  "model = ";
  EmptyString;
  "# TODO: Define the loss";
  "criterion = ";
  "# Forward pass, get our logits";
  "logits = model(images)";
  "# Calculate the loss with the logits and the labels";
  "loss = criterion(logits, labels)";
  "print('Initial weights - ', model[0].weight)";
  EmptyString;
  "images, labels = next(iter(trainloader))";
  "images.resize_(64, 784)";
  EmptyString;
  "# Clear the gradients, do this because gradients are accumulated";
  "        ";
  "        loss = " ].

Definition code_cells : list (list string) :=
[ data_source;
  cross_entropy_source;
  nll_exercise_source;
  randn_source;
  square_source;
  grad_fn_source;
  mean_source;
  no_grad_yet_source;
  backward_demo_source;
  autograd_loss_source;
  backward_source;
  optimizer_source;
  single_step_source;
  update_source;
  training_source;
  prediction_source;
  other_side ].

(** Python names and keywords are runs of letters, digits and [_]. *)
Definition name_char (c : ascii) : bool :=
  let n := nat_of_ascii c in
  (Nat.leb 48 n && Nat.leb n 57) || (Nat.leb 65 n && Nat.leb n 90)
  || (Nat.leb 97 n && Nat.leb n 122) || Nat.eqb n 95.

Definition is_quote (c : ascii) : bool :=
  Ascii.eqb c "'"%char || Nat.eqb (nat_of_ascii c) 34.

(** The code of a line: the line without its comment and without the text
    of its string literals.  What an f-string holds between braces is code
    and stays.  [quote] is the quote of the literal being read, [depth]
    the number of open braces in it.  (No literal of the cells holds an
    escaped quote, and none but the f-string holds a brace.) *)
Fixpoint code_of (quote : option ascii) (depth : nat) (s : string) : string :=
  match s with
  | EmptyString => EmptyString
  | String c s' =>
      match quote with
      | None =>
          if Ascii.eqb c "#"%char then EmptyString
          else if is_quote c then String " "%char (code_of (Some c) 0 s')
          else String c (code_of None 0 s')
      | Some q =>
          if Ascii.eqb c "{"%char
          then String " "%char (code_of quote (S depth) s')
          else if Ascii.eqb c "}"%char
          then String " "%char (code_of quote (pred depth) s')
          else match depth with
               | S _ => String c (code_of quote depth s')
               | 0 => if Ascii.eqb c q then String " "%char (code_of None 0 s')
                      else code_of quote 0 s'
               end
      end
  end.

(** The string literals of a line, without their quotes. *)
Fixpoint literals_from (quote : option ascii) (cur : string) (s : string)
  : list string :=
  match s with
  | EmptyString => []
  | String c s' =>
      match quote with
      | None =>
          if Ascii.eqb c "#"%char then []
          else if is_quote c then literals_from (Some c) EmptyString s'
          else literals_from None EmptyString s'
      | Some q =>
          if Ascii.eqb c q then cur :: literals_from None EmptyString s'
          else literals_from quote (cur ++ String c EmptyString) s'
      end
  end.

(** The words of a text; [cur] is the word being read. *)
Fixpoint words_from (cur : string) (s : string) : list string :=
  match s with
  | EmptyString => match cur with EmptyString => [] | _ => [cur] end
  | String c s' =>
      if name_char c then words_from (cur ++ String c EmptyString) s'
      else match cur with
           | EmptyString => words_from EmptyString s'
           | _ => cur :: words_from EmptyString s'
           end
  end.

(** What is called in a text: for every [(] that follows a name, the
    dotted path that ends there; a path that starts with a dot is an
    attribute of the expression before it.  [cur] is the path being
    read. *)
Fixpoint calls_from (cur : string) (s : string) : list string :=
  match s with
  | EmptyString => []
  | String c s' =>
      if name_char c || Ascii.eqb c "."%char
      then calls_from (cur ++ String c EmptyString) s'
      else if Ascii.eqb c "("%char
      then match cur with
           | EmptyString => calls_from EmptyString s'
           | _ => cur :: calls_from EmptyString s'
           end
      else calls_from EmptyString s'
  end.

(** Every line of every code cell. *)
Definition code_lines : list string := concat code_cells.

(** The keywords of Python 3 (the language reference, 2.3.1). *)
Definition python_keywords : list string :=
  ["False"; "None"; "True"; "and"; "as"; "assert"; "async"; "await";
   "break"; "class"; "continue"; "def"; "del"; "elif"; "else"; "except";
   "finally"; "for"; "from"; "global"; "if"; "import"; "in"; "is";
   "lambda"; "nonlocal"; "not"; "or"; "pass"; "raise"; "return"; "try";
   "while"; "with"; "yield"].

(** The code of a line, cut into words. *)
Definition code_words (l : string) : list string :=
  words_from EmptyString (code_of None 0 l).

(** What the code of a line calls. *)
Definition code_calls (l : string) : list string :=
  calls_from EmptyString (code_of None 0 l).

(** The keywords the code of the cells uses, each once. *)
Definition keywords_used : list string :=
  nodup string_dec
        (filter (fun w => existsb (String.eqb w) python_keywords)
                (flat_map code_words code_lines)).

(** What the code of the cells calls, each once. *)
Definition called : list string :=
  nodup string_dec (flat_map code_calls code_lines).

(** The string literals of the cells, each once. *)
Definition literals : list string :=
  nodup string_dec
        (flat_map (literals_from None EmptyString) code_lines).

(** The lines whose code calls [f], and the lines that hold the literal
    [l]. *)
Definition lines_calling (f : string) : list string :=
  filter (fun l => existsb (String.eqb f) (code_calls l)) code_lines.

Definition lines_with_literal (l : string) : list string :=
  filter (fun line => existsb (String.eqb l)
                              (literals_from None EmptyString line))
         code_lines.

(** The tokens of a text: its runs of name characters and dots; [cur] is
    the token being read. *)
Fixpoint tokens_from (cur : string) (s : string) : list string :=
  match s with
  | EmptyString => match cur with EmptyString => [] | _ => [cur] end
  | String c s' =>
      if name_char c || Ascii.eqb c "."%char
      then tokens_from (cur ++ String c EmptyString) s'
      else match cur with
           | EmptyString => tokens_from EmptyString s'
           | _ => cur :: tokens_from EmptyString s'
           end
  end.

(** The numbers written in the code of a cell: the tokens that start
    with a digit, in order. *)
Definition numbers_of (cell : list string) : list string :=
  filter (fun t => match t with
                   | String c _ => let n := nat_of_ascii c in
                                   Nat.leb 48 n && Nat.leb n 57
                   | EmptyString => false
                   end)
         (flat_map (fun l => tokens_from EmptyString (code_of None 0 l)) cell).

(** The import statements of the cells: the lines whose code holds the
    keyword [import], each once. *)
Definition imports : list string :=
  nodup string_dec
        (filter (fun l => existsb (String.eqb "import") (code_words l))
                code_lines).

Fixpoint lstrip (s : string) : string :=
  match s with
  | String " "%char s' => lstrip s'
  | _ => s
  end.

(** The IPython magics and shell escapes of the cells: the lines whose
    first character is [%] or [!], each once. *)
Definition magics : list string :=
  nodup string_dec
        (filter (fun l => match lstrip l with
                          | String c _ => Ascii.eqb c "%"%char
                                          || Ascii.eqb c "!"%char
                          | EmptyString => false
                          end)
                code_lines).

End Notebook.

(* ===================================================================== *)
(** ** A small framework to run the cells on                             *)
(* ===================================================================== *)

Module Toy.

(** Small numbers in place of tensors; a dataset of 130 samples, so that
  a pass has two full batches and one of two. *)
Definition torch : Torch := {|
Tensor := nat; Labels := nat; Sample := nat * nat; Weights := nat;
Grad := nat; PyFloat := nat; RNG := nat;
mnist train tf := mkDataset (fun i => (i, i)) 130;
randperm g n := (rev (seq 0 n), S g);
collate l := (Nat.min 9 (list_sum (map fst l)), length l);
init_weights layers g := (length layers + g, S g);
shape0 t := Z.of_nat t;
tensor_view t size := t;
tensor_resize_ t size := t;
linear w i x := Nat.min 9 (w + x + i);
relu x := x;
log_softmax d x := S x;
nll_loss o l := Nat.min 9 (o + l);
loss_grad t := t;
loss_item t := t;
grad_zero := 0;
grad_add := Nat.add;
zero_grad_to_none := false;
sgd_update lr w g := w - g;
float_of_Z := Z.to_nat;
float_add := Nat.add;
float_div := Nat.div
|}.

Definition kernel : @Kernel torch := @mkKernel torch 3 (Some 5) 0 42 [].

Definition trainloader : DataLoader (@Sample torch) :=
mkDataLoader (@mnist torch true []) 64 true.

(** Every [optimizer.zero_grad()] raises. *)
Definition zero_grad_fails : @Failures torch := {|
Exn := string;
raises c := match c with
            | CallZeroGrad => Some "RuntimeError"%string
            | _ => None
            end
|}.

(** No call raises. *)
Definition no_failure : @Failures torch := {|
Exn := string;
raises c := None
|}.

(** A 1 x 28 x 28 image of zeros, and a dataset of 70 of them read in
  order. *)
Definition image : Shapes.tensor Z :=
Shapes.mkTensor [1; 28; 28]%Z (repeat 0%Z 784).

Definition images : Dataset (Shapes.tensor Z) := mkDataset (fun _ => image) 70.

Definition in_order (g : unit) (n : nat) : list nat * unit := (seq 0 n, g).

End Toy.

(* ===================================================================== *)
(** ** Vocabulary for statements about runs                              *)
(* ===================================================================== *)

Section RunVocabulary.

Context {T : Torch}.

(** The calls a cell adds to the log. *)
Definition new_calls {A} (c : Cell A) (k : Kernel) : list Call :=
skipn (length (calls k)) (calls (exec c k)).

(** The state in which the loops of a training run start. *)
Definition after_setup (layers : list Layer) (lr : Q) (k : Kernel) : Kernel :=
mkKernel (fst (init_weights layers (rng k))) None
         (snd (init_weights layers (rng k))) (running_loss k)
         (calls k ++ [CallSequential layers; CallSGD lr]).

(** The training losses a log prints, in order. *)
Fixpoint printed_losses (t : list Call) : list PyFloat :=
match t with
| [] => []
| CallPrint (PTrainingLoss v) :: t' => v :: printed_losses t'
| _ :: t' => printed_losses t'
end.

Definition four_steps : list Kind := [KForward; KCriterion; KBackward; KStep].

(** The number of [optimizer.step()] calls in a log. *)
Definition updates (t : list Call) : nat :=
  length (filter (fun c => match c with CallStep _ _ => true | _ => false end)
                 t).

(** A statement that leaves the parameters, and one that leaves their
  [.grad], as they are. *)
Definition keeps_parameters {A} (c : Cell A) : Prop :=
forall k, weights (exec c k) = weights k.

Definition keeps_gradients {A} (c : Cell A) : Prop :=
forall k, grad (exec c k) = grad k.

(** The calls of a training pass before its update. *)
Definition before_step (model : list Layer) (criterion : Criterion)
(w : Weights) (batch : Tensor * Labels) : list Call :=
[CallView (fst batch) [shape0 (fst batch); (-1)%Z];
 CallZeroGrad;
 CallForward w (flat (fst batch));
 CallCriterion criterion (sequential model w 0 (flat (fst batch)))
               (snd batch);
 CallBackward (pass_loss model criterion w batch)].

(** Every update in a log closes a training pass and finds in [.grad]
  the gradient of the loss of that pass. *)
Definition fresh_gradients (model : list Layer) (criterion : Criterion)
(t : list Call) : Prop :=
forall pre w g post,
  t = pre ++ CallStep w g :: post ->
  exists pre' batch,
    pre = pre' ++ before_step model criterion w batch /\
    g = Some (loss_grad (pass_loss model criterion w batch)).

(** The scores of a batch of images: the output of the last [nn.Linear]
  of the notebook's stacks, before any normalisation. *)
Definition raw_scores (w : Weights) (images : Tensor) : Tensor :=
linear w 2 (relu (linear w 1 (relu (linear w 0 (flat images))))).

(** The batch a loss cell fetches: the first one of a new iteration,
  started once the cell's model has drawn its weights. *)
Definition fetched_batch (layers : list Layer)
(trainloader : DataLoader Sample) (k : Kernel) : option (Tensor * Labels) :=
hd_error (fst (loader_iter randperm collate trainloader
                           (snd (init_weights layers (rng k))))).

End RunVocabulary.

(* ===================================================================== *)
(** ** The prediction cell                                               *)
(* ===================================================================== *)

(** What the prediction cell does with sizes:
    [img = images[0].view(1, 784)] and [img.view(1, 28, 28)]. *)
Module Prediction.

Import Shapes.

Section Select.

Variable X : Type.

(** [t[0]]: the first slice along the first dimension; [None] stands for
the [IndexError] (no dimension, or none of size at least 1). *)
Definition select_0 (t : tensor X) : option (tensor X) :=
match size t with
| n :: rest =>
  if Z.ltb 0 n
  then Some (mkTensor rest
                      (firstn (Z.to_nat (numel_of rest)) (elements t)))
  else None
| [] => None
end.

(** [img = images[0].view(1, 784)]. *)
Definition first_image_row (images : tensor X) : option (tensor X) :=
match select_0 images with
| Some t => view_as t [1; 784]%Z
| None => None
end.

(** [img.view(1, 28, 28)], the argument of [helper.view_classify]. *)
Definition shown_image (img : tensor X) : option (tensor X) :=
view_as img [1; 28; 28]%Z.

End Select.

End Prediction.

(* ===================================================================== *)
(** ** Vocabulary for statements about failures                          *)
(* ===================================================================== *)

Section FailureVocabulary.

Context {T : Torch} {F : Failures}.

(** A cell whose log only grows. *)
Definition extends_log {A} (d : Cell A) : Prop :=
  forall k, calls (exec d k) = calls k ++ new_calls d k.

(** The first call of a log that raises: the calls before it, the call,
    and what it raises. *)
Fixpoint first_raise (t : list Call) : option (list Call * Call * Exn) :=
  match t with
  | [] => None
  | c :: t' =>
      match raises c with
      | Some e => Some ([], c, e)
      | None =>
          match first_raise t' with
          | Some (pre, c', e) => Some (c :: pre, c', e)
          | None => None
          end
      end
  end.

(** [m] is [d] read with failures.  When none of the calls that [d] makes
    raises, [m] returns what [d] returns and leaves the state [d] leaves.
    When one does, [m] ends in the exception of the first that does, as
    the framework raised it, having logged the calls up to that one and
    nothing after it. *)
Definition follows {A} (m : Fallible A) (d : Cell A) : Prop :=
  forall k,
    match first_raise (new_calls d k) with
    | None => m k = (inr (eval d k), exec d k)
    | Some (pre, c, e) =>
        exists k',
          m k = (inl (FrameworkError e), k') /\
          calls k' = calls k ++ pre ++ [c]
    end.

(** A cell whose calls never ask for a download. *)
Definition never_downloads {A} (d : Cell A) : Prop :=
  forall k, Forall (fun c => kind c <> KMNIST) (new_calls d k).

End FailureVocabulary.

(* ===================================================================== *)
(** ** More small inputs                                                 *)
(* ===================================================================== *)

Module Toy2.

(** A loader that does not shuffle, over a dataset without samples. *)
Definition empty_loader : DataLoader (@Sample Toy.torch) :=
  mkDataLoader (mkDataset (fun i => (i, i)) 0) 64 false.

End Toy2.
(* ===================================================================== *)
(** * Properties                                                         *)
(* ===================================================================== *)

Unset Implicit Arguments.

Section DirectFacts.

Context {T : Torch}.

Lemma exec_bind {A B} (c : Cell A) (f : A -> Cell B) k :
exec (bind c f) k = exec (f (eval c k)) (exec c k).
Proof. unfold exec, eval; simpl. destruct (c k); reflexivity. Qed.

Lemma new_calls_eq {A} (c : Cell A) k t :
calls (exec c k) = calls k ++ t -> new_calls c k = t.
Proof.
intros E. unfold new_calls. rewrite E, skipn_app, skipn_all, Nat.sub_diag.
reflexivity.
Qed.

Lemma training_pass_run model criterion optimizer batch k :
let loss := pass_loss model criterion (weights k) batch in
let g := accumulated (zeroed (grad k)) (loss_grad loss) in
exec (training_pass model criterion optimizer batch) k =
mkKernel (stepped optimizer (weights k) g) g (rng k)
         (float_add (running_loss k) (loss_item loss))
         (calls k ++ pass_calls model criterion (weights k) (grad k) batch).
Proof.
destruct batch as [images labels]. unfold exec, pass_calls, pass_loss. simpl.
repeat rewrite <- app_assoc. reflexivity.
Qed.

Lemma items_app t1 t2 : items (t1 ++ t2) = items t1 ++ items t2.
Proof.
induction t1 as [|c t1 IH]; simpl; [reflexivity|].
destruct c; simpl; rewrite ?IH; reflexivity.
Qed.

Lemma weights_after_app lr t1 t2 w :
weights_after lr (t1 ++ t2) w = weights_after lr t2 (weights_after lr t1 w).
Proof.
revert w; induction t1 as [|c t1 IH]; intros w; simpl; [reflexivity|].
destruct c; apply IH.
Qed.

Lemma consistent_app lr t1 t2 w :
consistent lr w t1 -> consistent lr (weights_after lr t1 w) t2 ->
consistent lr w (t1 ++ t2).
Proof.
revert w; induction t1 as [|c t1 IH]; intros w H1 H2; simpl in *; [exact H2|].
destruct c; try (apply IH; assumption);
  destruct H1 as [-> H1]; split; auto.
Qed.

Lemma pass_calls_consistent model criterion lr w g batch :
consistent lr w (pass_calls model criterion w g batch).
Proof. simpl; auto. Qed.

Lemma pass_calls_weights model criterion lr w g batch :
weights_after lr (pass_calls model criterion w g batch) w =
stepped lr w (accumulated (zeroed g)
                (loss_grad (pass_loss model criterion w batch))).
Proof. reflexivity. Qed.

Lemma pass_calls_items model criterion w g batch :
items (pass_calls model criterion w g batch) =
[loss_item (pass_loss model criterion w batch)].
Proof. reflexivity. Qed.

(** The inner loop. *)
Lemma inner_loop_run model criterion optimizer batches k :
exists t,
  passes model criterion batches t /\
  consistent optimizer (weights k) t /\
  weights (exec (for_each batches (training_pass model criterion optimizer)) k)
  = weights_after optimizer t (weights k) /\
  rng (exec (for_each batches (training_pass model criterion optimizer)) k)
  = rng k /\
  running_loss (exec (for_each batches (training_pass model criterion optimizer)) k)
  = fold_left float_add (items t) (running_loss k) /\
  calls (exec (for_each batches (training_pass model criterion optimizer)) k)
  = calls k ++ t.
Proof.
revert k; induction batches as [|b bs IH]; intros k.
- exists []. simpl. rewrite app_nil_r. repeat split; constructor.
- cbn [for_each].
  pose proof (exec_bind (training_pass model criterion optimizer b)
                (fun _ => for_each bs (training_pass model criterion optimizer)) k) as E.
  rewrite training_pass_run in E.
  match type of E with _ = exec _ ?k1 =>
    destruct (IH k1) as (t & Hp & Hc & Hw & Hr & Hl & Hcalls) end.
  exists (pass_calls model criterion (weights k) (grad k) b ++ t).
  rewrite E, Hw, Hr, Hl, Hcalls; cbn [weights rng running_loss calls] in *.
  split; [constructor; exact Hp|].
  split; [apply consistent_app; [apply pass_calls_consistent | rewrite pass_calls_weights; exact Hc]|].
  split; [rewrite weights_after_app, pass_calls_weights; reflexivity|].
  split; [reflexivity|].
  split; [rewrite items_app, fold_left_app; reflexivity|].
  rewrite app_assoc; reflexivity.
Qed.


Lemma consistent_epoch_calls lr w trainloader t :
consistent lr w t -> consistent lr w (epoch_calls trainloader t).
Proof.
intros H. unfold epoch_calls. simpl.
apply consistent_app; [exact H | simpl; exact I].
Qed.

Lemma weights_after_epoch_calls lr w trainloader t :
weights_after lr (epoch_calls trainloader t) w = weights_after lr t w.
Proof. unfold epoch_calls; simpl. rewrite weights_after_app. reflexivity. Qed.

(** One epoch. *)
Lemma epoch_run model criterion optimizer trainloader e k :
exists t,
  passes model criterion
         (fst (loader_iter randperm collate trainloader (rng k))) t /\
  consistent optimizer (weights k) t /\
  weights (exec (epoch model criterion optimizer trainloader e) k)
  = weights_after optimizer t (weights k) /\
  rng (exec (epoch model criterion optimizer trainloader e) k)
  = snd (loader_iter randperm collate trainloader (rng k)) /\
  calls (exec (epoch model criterion optimizer trainloader e) k)
  = calls k ++ epoch_calls trainloader t.
Proof.
unfold epoch.
set (body := training_pass model criterion optimizer).
set (k1 := mkKernel (weights k) (grad k)
                    (snd (loader_iter randperm collate trainloader (rng k)))
                    (float_of_Z 0) (calls k ++ [CallIter])).
destruct (inner_loop_run model criterion optimizer
            (fst (loader_iter randperm collate trainloader (rng k))) k1)
  as (t & Hp & Hc & Hw & Hr & Hl & Hcalls).
fold body in Hw, Hr, Hl, Hcalls.
exists t. split; [exact Hp|]. split; [exact Hc|].
unfold exec in *; simpl.
destruct (loader_iter randperm collate trainloader (rng k)) as [bs g] eqn:Eit.
simpl in *. subst k1.
destruct (for_each bs body _) as [[] k2]. simpl in *.
unfold logged; simpl.
rewrite Hw, Hr, Hl, Hcalls. unfold epoch_calls, mean_loss.
repeat split. rewrite <- !app_assoc. reflexivity.
Qed.

(** The outer loop: [n] epochs. *)
Lemma epochs_run model criterion optimizer trainloader n a k :
exists t,
  epochs_log model criterion trainloader n t /\
  consistent optimizer (weights k) t /\
  calls (exec (for_each (seq a n)
                 (epoch model criterion optimizer trainloader)) k)
  = calls k ++ t.
Proof.
revert a k; induction n as [|n IH]; intros a k.
- exists []. simpl. rewrite app_nil_r. repeat split.
  exists []. repeat split. constructor.
- cbn [seq for_each].
  pose proof (exec_bind (epoch model criterion optimizer trainloader a)
                (fun _ => for_each (seq (S a) n)
                            (epoch model criterion optimizer trainloader)) k) as E.
  destruct (epoch_run model criterion optimizer trainloader a k)
    as (t & Hp & Hc & Hw & Hr & Hcalls).
  destruct (IH (S a) (exec (epoch model criterion optimizer trainloader a) k))
    as (rest & (segs & Hlen & Hrest & Hall) & Hc' & Hcalls').
  exists (epoch_calls trainloader t ++ rest).
  split; [|split].
  + exists (t :: segs). simpl. rewrite Hlen, Hrest. repeat split.
    constructor; [exists (rng k); exact Hp | exact Hall].
  + apply consistent_app; [apply consistent_epoch_calls; exact Hc|].
    rewrite weights_after_epoch_calls, <- Hw. exact Hc'.
  + rewrite E, Hcalls', Hcalls, app_assoc. reflexivity.
Qed.

Lemma training_cell_setup trainloader k :
  exec (training_cell trainloader) k =
  exec (for_each (seq 0 5)
          (epoch [Linear 784 128; ReLU; Linear 128 64; ReLU; Linear 64 10;
                  LogSoftmax 1] NLLLoss (3 # 1000)%Q trainloader))
       (after_setup [Linear 784 128; ReLU; Linear 128 64; ReLU; Linear 64 10;
                     LogSoftmax 1] (3 # 1000)%Q k).
Proof.
  set (layers := [Linear 784 128; ReLU; Linear 128 64; ReLU; Linear 64 10;
                  LogSoftmax 1]).
  assert (E1 : eval (nn_Sequential layers) k = layers)
    by (unfold eval; simpl; destruct (init_weights layers (rng k)); reflexivity).
  assert (E3 : exec (optim_SGD (3 # 1000)%Q) (exec (nn_Sequential layers) k)
               = after_setup layers (3 # 1000)%Q k).
  { unfold exec, after_setup; simpl.
    destruct (init_weights layers (rng k)); simpl.
    unfold logged; simpl. rewrite <- app_assoc. reflexivity. }
  unfold training_cell. fold layers. cbv zeta.
  rewrite !exec_bind, E1, E3. reflexivity.
Qed.

(** The training cell. *)
Lemma training_cell_run trainloader k :
let layers := [Linear 784 128; ReLU; Linear 128 64; ReLU; Linear 64 10;
               LogSoftmax 1] in
exists t,
  epochs_log layers NLLLoss trainloader 5 t /\
  consistent (3 # 1000)%Q (fst (init_weights layers (rng k))) t /\
  calls (exec (training_cell trainloader) k)
  = calls k ++ CallSequential layers :: CallSGD (3 # 1000)%Q :: t.
Proof.
intros layers. rewrite training_cell_setup. fold layers.
destruct (epochs_run layers NLLLoss (3 # 1000)%Q trainloader 5 0
            (after_setup layers (3 # 1000)%Q k)) as (t & Hlog & Hc & Hcalls).
exists t. split; [exact Hlog|]. split; [exact Hc|].
rewrite Hcalls. unfold after_setup; cbn [calls].
rewrite <- app_assoc. reflexivity.
Qed.

End DirectFacts.

Section BatchFacts.

Lemma batch_sampler_length_from n batch idx :
0 < n -> length batch < n ->
length (batch_sampler n batch idx)
= (length batch + length idx + n - 1) / n.
Proof.
intros Hn. revert batch; induction idx as [|i idx IH]; intros batch Hb.
- cbn [batch_sampler length]. rewrite Nat.add_0_r.
  destruct batch as [|a batch]; cbn [length] in *.
  + symmetry. apply Nat.div_small. lia.
  + apply (Nat.div_unique _ _ 1 (length batch)); lia.
- cbn [batch_sampler]. cbn [length] in *.
  destruct (Nat.eqb_spec (S (length batch)) n) as [E|E].
  + cbn [length]. rewrite (IH []) by (simpl; lia). cbn [length].
    replace (length batch + S (length idx) + n - 1)
      with (1 * n + (0 + length idx + n - 1)) by lia.
    rewrite Nat.div_add_l by lia. reflexivity.
  + rewrite (IH (i :: batch)) by (simpl; lia). cbn [length].
    f_equal. lia.
Qed.

(** The sampler yields [ceil(len / n)] batches. *)
Lemma batch_sampler_length n idx :
0 < n -> length (batch_sampler n [] idx) = (length idx + n - 1) / n.
Proof. intros Hn. apply (batch_sampler_length_from n [] idx Hn). exact Hn. Qed.

Lemma batch_sampler_sizes_from n batch idx :
0 < n -> length batch < n ->
exists full last,
  batch_sampler n batch idx = full ++ last /\
  Forall (fun b => length b = n) full /\
  (last = [] \/ exists b, last = [b] /\ 0 < length b < n).
Proof.
intros Hn. revert batch; induction idx as [|i idx IH]; intros batch Hb.
- cbn [batch_sampler]. destruct batch as [|a batch].
  + exists [], []. repeat split; [constructor | left; reflexivity].
  + exists [], [rev (a :: batch)]. repeat split; [constructor|].
    right. eexists. split; [reflexivity|]. rewrite length_rev. simpl in *. lia.
- cbn [batch_sampler].
  destruct (Nat.eqb_spec (length (i :: batch)) n) as [E|E].
  + destruct (IH []) as (full & last & -> & Hfull & Hlast); [simpl; lia|].
    exists (rev (i :: batch) :: full), last. repeat split; [|exact Hlast].
    constructor; [rewrite length_rev; exact E | exact Hfull].
  + apply IH. simpl in *. lia.
Qed.

End BatchFacts.

Section LoaderFacts.

Variables Sample Batch RNG : Type.
Variable randperm : RNG -> nat -> list nat * RNG.
Variable collate : list Sample -> Batch.

Lemma batch_sampler_concat n batch idx :
concat (batch_sampler n batch idx) = rev batch ++ idx.
Proof.
revert batch; induction idx as [|i idx IH]; intros batch; cbn [batch_sampler].
- destruct batch; simpl; [reflexivity|]. rewrite !app_nil_r. reflexivity.
- destruct (Nat.eqb (length (i :: batch)) n); simpl; rewrite IH; simpl;
    rewrite <- ?app_assoc; reflexivity.
Qed.

(** Every batch the sampler yields is non-empty and holds at most
  [n] indices when it starts from an empty batch. *)
Lemma batch_sampler_first n idx :
0 < n -> n <= length idx ->
exists rest, batch_sampler n [] idx = firstn n idx :: rest.
Proof.
intros Hn Hlen.
assert (G : forall batch idx, length batch < n -> n <= length batch + length idx ->
          exists rest, batch_sampler n batch idx
                       = (rev batch ++ firstn (n - length batch) idx) :: rest).
{ clear idx Hlen. intros batch idx; revert batch.
  induction idx as [|i idx IH]; intros batch Hb Hle; cbn [batch_sampler];
    simpl length in *; [lia|].
  destruct (Nat.eqb_spec (S (length batch)) n) as [E|E].
  - eexists. f_equal. replace (n - length batch) with 1 by lia.
    simpl. reflexivity.
  - destruct (IH (i :: batch)) as (rest & ->); simpl; [lia|lia|].
    exists rest. f_equal.
    replace (n - length batch) with (S (n - S (length batch))) by lia.
    simpl. rewrite <- app_assoc. reflexivity. }
destruct (G [] idx) as (rest & ->); simpl; [lia|lia|].
exists rest. rewrite Nat.sub_0_r. reflexivity.
Qed.

Lemma loader_iter_full_pass (dl : DataLoader Sample) g :
(forall g n, Permutation (fst (randperm g n)) (seq 0 n)) ->
exists idx : list (list nat),
  fst (loader_iter randperm collate dl g)
  = map (fun b => collate (map (getitem (dataset dl)) b)) idx /\
  Permutation (concat idx) (seq 0 (ds_len (dataset dl))).
Proof.
intros Hperm. unfold loader_iter.
destruct (sampler randperm dl g) as [idx g'] eqn:E.
exists (batch_sampler (batch_size dl) [] idx). split; [reflexivity|].
rewrite batch_sampler_concat. simpl.
unfold sampler in E. destruct (shuffle dl).
- specialize (Hperm g (ds_len (dataset dl))). rewrite E in Hperm. exact Hperm.
- inversion E; subst. apply Permutation_refl.
Qed.

End LoaderFacts.

Section LoaderLength.

Variables Sample Batch RNG : Type.
Variable randperm : RNG -> nat -> list nat * RNG.
Variable collate : list Sample -> Batch.

Lemma loader_len_positive (dl : DataLoader Sample) :
  0 < loader_len dl -> 0 < batch_size dl.
Proof.
  unfold loader_len. destruct (batch_size dl) as [|n]; [|lia].
  rewrite Nat.div_0_r. lia.
Qed.

Lemma loader_iter_length (dl : DataLoader Sample) (g : RNG) :
  0 < loader_len dl ->
  (forall g n, length (fst (randperm g n)) = n) ->
  length (fst (loader_iter randperm collate dl g)) = loader_len dl.
Proof.
  intros Hlen Hperm. pose proof (loader_len_positive dl Hlen) as Hn.
  unfold loader_iter, loader_len.
  destruct (sampler randperm dl g) as [idx g'] eqn:E. cbn [fst].
  rewrite length_map, batch_sampler_length by exact Hn.
  assert (Hidx : length idx = ds_len (dataset dl)).
  { unfold sampler in E. destruct (shuffle dl).
    - specialize (Hperm g (ds_len (dataset dl))). rewrite E in Hperm. exact Hperm.
    - inversion E. apply length_seq. }
  rewrite Hidx. reflexivity.
Qed.

Lemma loader_iter_nonempty (dl : DataLoader Sample) (g : RNG) :
  0 < loader_len dl ->
  (forall g n, length (fst (randperm g n)) = n) ->
  fst (loader_iter randperm collate dl g) <> [].
Proof.
  intros Hlen Hperm E. apply (f_equal (@length Batch)) in E.
  rewrite loader_iter_length in E by assumption. simpl in E. lia.
Qed.

End LoaderLength.

Lemma toy_loader_nonempty : 0 < loader_len Toy.trainloader.
Proof. vm_compute. lia. Qed.

Lemma toy_randperm_length :
  forall g n, length (fst (@randperm Toy.torch g n)) = n.
Proof. intros g n. simpl. rewrite length_rev. apply length_seq. Qed.

Section LoaderCount.

Variables Sample Batch RNG : Type.
Variable randperm : RNG -> nat -> list nat * RNG.
Variable collate : list Sample -> Batch.

(** X1: an iteration over a loader yields [len(trainloader)] batches. *)
Theorem loader_yields_len_batches (dl : DataLoader Sample) (g : RNG) :
0 < batch_size dl ->
(forall g n, length (fst (randperm g n)) = n) ->
length (fst (loader_iter randperm collate dl g)) = loader_len dl.
Proof.
intros Hn Hperm. unfold loader_iter, loader_len.
destruct (sampler randperm dl g) as [idx g'] eqn:E. cbn [fst].
rewrite length_map, batch_sampler_length by exact Hn.
assert (Hidx : length idx = ds_len (dataset dl)).
{ unfold sampler in E. destruct (shuffle dl).
  - specialize (Hperm g (ds_len (dataset dl))). rewrite E in Hperm. exact Hperm.
  - inversion E. apply length_seq. }
rewrite Hidx. reflexivity.
Qed.

(** X2: every batch but the last holds exactly [batch_size] indices; the
  last one, when it is not full, is not empty either. *)
Theorem batches_are_full_but_the_last (n : nat) (idx : list nat) :
0 < n ->
exists full last,
  batch_sampler n [] idx = full ++ last /\
  Forall (fun b => length b = n) full /\
  (last = [] \/ exists b, last = [b] /\ 0 < length b < n).
Proof. intros Hn. apply batch_sampler_sizes_from; simpl; lia. Qed.

End LoaderCount.

Lemma loader_yields_len_batches_witness :
  0 < batch_size Toy.trainloader /\
  (forall g n, length (fst (@randperm Toy.torch g n)) = n) /\
  length (fst (loader_iter (@randperm Toy.torch) (@collate Toy.torch)
                           Toy.trainloader 0)) = 3.
Proof.
  assert (H1 : 0 < batch_size Toy.trainloader) by (simpl; lia).
  assert (H2 : forall g n, length (fst (@randperm Toy.torch g n)) = n)
    by (intros g n; simpl; rewrite length_rev; apply length_seq).
  split; [exact H1|]. split; [exact H2|].
  rewrite (loader_yields_len_batches _ _ _ (@randperm Toy.torch) (@collate Toy.torch)
             Toy.trainloader 0 H1 H2).
  reflexivity.
Defined.

Lemma batches_are_full_but_the_last_witness :
  0 < 64 /\
  exists full last,
    batch_sampler 64 [] (seq 0 130) = full ++ last /\
    Forall (fun b => length b = 64) full /\
    (last = [] \/ exists b, last = [b] /\ 0 < length b < 64).
Proof.
  split; [lia|]. apply (batches_are_full_but_the_last 64 (seq 0 130)). lia.
Defined.

Section OrderFacts.

Context {T : Torch}.

Lemma passes_learning_steps model criterion batches t :
passes model criterion batches t ->
filter learning_step (map kind t) = concat (repeat four_steps (length batches)).
Proof.
induction 1 as [|w g b bs t _ IH]; [reflexivity|].
rewrite map_app, filter_app, IH. reflexivity.
Qed.

Lemma epoch_calls_learning_steps trainloader t :
filter learning_step (map kind (epoch_calls trainloader t)) =
filter learning_step (map kind t).
Proof.
unfold epoch_calls. simpl. rewrite map_app, filter_app. simpl.
apply app_nil_r.
Qed.

Lemma concat_repeat_add {A} (l : list A) n m :
concat (repeat l (n + m)) = concat (repeat l n) ++ concat (repeat l m).
Proof. rewrite repeat_app, concat_app. reflexivity. Qed.

Lemma epochs_learning_steps model criterion trainloader n t :
epochs_log model criterion trainloader n t ->
exists m, filter learning_step (map kind t) = concat (repeat four_steps m).
Proof.
intros (segs & _ & -> & Hall).
induction Hall as [|seg segs (g & Hp) _ (m & IH)].
- exists 0. reflexivity.
- exists (length (fst (loader_iter randperm collate trainloader g)) + m).
  rewrite map_cons, concat_cons, map_app, filter_app, epoch_calls_learning_steps.
  rewrite (passes_learning_steps _ _ _ _ Hp), IH, concat_repeat_add. reflexivity.
Qed.

(** C1: over a loader that has a batch to give, in the training cell every
    batch of every epoch gets the calls of one training pass, in which the
    forward pass, the loss, the backward pass and the update come in this
    order, each on the result of the one before; restricted to these four
    calls the log is that sequence over and over. *)
Theorem training_loop_order trainloader k
  (nonempty : 0 < loader_len trainloader) :
let layers := [Linear 784 128; ReLU; Linear 128 64; ReLU; Linear 64 10;
               LogSoftmax 1] in
exists t,
  calls (exec (training_cell trainloader) k)
  = calls k ++ CallSequential layers :: CallSGD (3 # 1000)%Q :: t /\
  epochs_log layers NLLLoss trainloader 5 t /\
  exists m,
    filter learning_step (map kind t) = concat (repeat four_steps m).
Proof.
intros layers.
destruct (training_cell_run trainloader k) as (t & Hlog & _ & Hcalls).
exists t. split; [exact Hcalls|]. split; [exact Hlog|].
eapply epochs_learning_steps; exact Hlog.
Qed.

End OrderFacts.

Lemma training_loop_order_witness :
  0 < loader_len Toy.trainloader /\
  exists t,
    calls (exec (T := Toy.torch) (training_cell Toy.trainloader) Toy.kernel)
    = calls Toy.kernel
      ++ CallSequential [Linear 784 128; ReLU; Linear 128 64; ReLU;
                         Linear 64 10; LogSoftmax 1]
      :: CallSGD (3 # 1000)%Q :: t /\
    epochs_log (T := Toy.torch)
               [Linear 784 128; ReLU; Linear 128 64; ReLU; Linear 64 10;
                LogSoftmax 1] NLLLoss Toy.trainloader 5 t /\
    exists m,
      filter learning_step (map kind t) = concat (repeat four_steps m).
Proof.
  split; [exact toy_loader_nonempty|].
  exact (training_loop_order (T := Toy.torch) Toy.trainloader Toy.kernel
           toy_loader_nonempty).
Defined.

Section EpochFacts.

Context {T : Torch}.

(** C2: the body of the outer loop does not depend on [e]; over a loader
    that has a batch to give, the training cell runs it 5 times, each time
    with one training pass per batch of one iteration of the loader; and,
    [torch.randperm] giving a permutation, the batches of one iteration
    fetch every index of the dataset exactly once. *)
Theorem epoch_is_loop_control trainloader k
  (nonempty : 0 < loader_len trainloader)
  (randperm_permutes :
     forall g n, Permutation (fst (randperm g n)) (seq 0 n)) :
let layers := [Linear 784 128; ReLU; Linear 128 64; ReLU; Linear 64 10;
               LogSoftmax 1] in
(forall optimizer e e',
    epoch (M := Cell) layers NLLLoss optimizer trainloader e
    = epoch layers NLLLoss optimizer trainloader e') /\
(exists t,
    calls (exec (training_cell trainloader) k)
    = calls k ++ CallSequential layers :: CallSGD (3 # 1000)%Q :: t /\
    epochs_log layers NLLLoss trainloader 5 t) /\
(forall g, exists idx : list (list nat),
    fst (loader_iter randperm collate trainloader g)
    = map (fun b => collate (map (getitem (dataset trainloader)) b)) idx /\
    Permutation (concat idx) (seq 0 (ds_len (dataset trainloader)))).
Proof.
intros layers. split; [reflexivity|]. split.
- destruct (training_cell_run trainloader k) as (t & Hlog & _ & Hcalls).
  exists t; split; assumption.
- intros g. apply loader_iter_full_pass. exact randperm_permutes.
Qed.

End EpochFacts.

Lemma toy_randperm_permutes :
  forall g n, Permutation (fst (@randperm Toy.torch g n)) (seq 0 n).
Proof. intros g n. simpl. apply Permutation_sym, Permutation_rev. Qed.

Lemma epoch_is_loop_control_witness :
  0 < loader_len Toy.trainloader /\
  (forall g n, Permutation (fst (@randperm Toy.torch g n)) (seq 0 n)) /\
  (exists t,
     calls (exec (T := Toy.torch) (training_cell Toy.trainloader) Toy.kernel)
     = calls Toy.kernel
       ++ CallSequential [Linear 784 128; ReLU; Linear 128 64; ReLU;
                          Linear 64 10; LogSoftmax 1]
       :: CallSGD (3 # 1000)%Q :: t /\
     epochs_log (T := Toy.torch)
                [Linear 784 128; ReLU; Linear 128 64; ReLU; Linear 64 10;
                 LogSoftmax 1] NLLLoss Toy.trainloader 5 t) /\
  forall g, exists idx : list (list nat),
    fst (loader_iter (@randperm Toy.torch) (@collate Toy.torch) Toy.trainloader g)
    = map (fun b => @collate Toy.torch (map (getitem (dataset Toy.trainloader)) b))
          idx /\
    Permutation (concat idx) (seq 0 (ds_len (dataset Toy.trainloader))).
Proof.
  split; [exact toy_loader_nonempty|].
  split; [exact toy_randperm_permutes|].
  exact (proj2 (epoch_is_loop_control (T := Toy.torch) Toy.trainloader
                  Toy.kernel toy_loader_nonempty toy_randperm_permutes)).
Defined.

Section LossFacts.

Context {T : Torch}.

Lemma printed_losses_app t1 t2 :
printed_losses (t1 ++ t2) = printed_losses t1 ++ printed_losses t2.
Proof.
induction t1 as [|c t1 IH]; simpl; [reflexivity|].
destruct c as [| | | | | | | | | | | | |p]; simpl; rewrite ?IH; try reflexivity.
destruct p; simpl; rewrite ?IH; reflexivity.
Qed.

Lemma passes_printed model criterion batches t :
passes model criterion batches t -> printed_losses t = [].
Proof.
induction 1 as [|w g b bs t _ IH]; [reflexivity|].
rewrite printed_losses_app, IH. reflexivity.
Qed.

Lemma passes_items model criterion batches t :
passes model criterion batches t -> length (items t) = length batches.
Proof.
induction 1 as [|w g b bs t _ IH]; [reflexivity|].
rewrite items_app, length_app, IH. reflexivity.
Qed.

Lemma epochs_printed model criterion trainloader segs :
Forall (fun seg => exists g,
          passes model criterion
                 (fst (loader_iter randperm collate trainloader g)) seg) segs ->
printed_losses (concat (map (epoch_calls trainloader) segs))
= map (mean_loss trainloader) segs.
Proof.
induction 1 as [|seg segs (g & Hp) _ IH]; [reflexivity|].
rewrite map_cons, concat_cons, printed_losses_app, IH.
unfold epoch_calls. simpl. rewrite printed_losses_app.
rewrite (passes_printed _ _ _ _ Hp). reflexivity.
Qed.

(** C9: over a loader that has a batch to give, so that
    [len(trainloader)] is not 0, the log of the training cell is 5 blocks,
    one per epoch; the loss printed at the end of a block is the sum, from
    0, of the [loss.item()] values of the passes of that block alone, one
    per batch, divided by [len(trainloader)]; what [running_loss] held
    before plays no part. *)
Theorem printed_training_loss trainloader k
  (nonempty : 0 < loader_len trainloader) :
let layers := [Linear 784 128; ReLU; Linear 128 64; ReLU; Linear 64 10;
               LogSoftmax 1] in
exists segs : list (list Call),
  length segs = 5 /\
  calls (exec (training_cell trainloader) k)
  = calls k ++ CallSequential layers :: CallSGD (3 # 1000)%Q
            :: concat (map (epoch_calls trainloader) segs) /\
  Forall (fun seg => exists g,
            passes layers NLLLoss
                   (fst (loader_iter randperm collate trainloader g)) seg /\
            length (items seg)
            = length (fst (loader_iter randperm collate trainloader g)))
         segs /\
  printed_losses (calls (exec (training_cell trainloader) k))
  = printed_losses (calls k) ++ map (mean_loss trainloader) segs.
Proof.
intros layers.
destruct (training_cell_run trainloader k)
  as (t & (segs & Hlen & -> & Hall) & _ & Hcalls).
exists segs. split; [exact Hlen|]. split; [exact Hcalls|]. split.
- eapply Forall_impl; [|exact Hall]. intros seg (g & Hp).
  exists g. split; [exact Hp|]. eapply passes_items; exact Hp.
- rewrite Hcalls, printed_losses_app. simpl.
  rewrite (epochs_printed _ _ _ _ Hall). reflexivity.
Qed.

End LossFacts.

Lemma printed_training_loss_witness :
  0 < loader_len Toy.trainloader /\
  exists segs : list (list (@Call Toy.torch)),
    length segs = 5 /\
    printed_losses (calls (exec (T := Toy.torch) (training_cell Toy.trainloader)
                                Toy.kernel))
    = printed_losses (calls Toy.kernel) ++ map (mean_loss Toy.trainloader) segs.
Proof.
  split; [exact toy_loader_nonempty|].
  destruct (printed_training_loss (T := Toy.torch) Toy.trainloader Toy.kernel
              toy_loader_nonempty) as (segs & Hlen & _ & _ & Hprinted).
  exists segs. split; assumption.
Defined.

Section ConfigFacts.

Context {T : Torch}.

Lemma updates_app t1 t2 : updates (t1 ++ t2) = updates t1 + updates t2.
Proof. unfold updates. rewrite filter_app, length_app. reflexivity. Qed.

Lemma passes_updates model criterion batches t :
  passes model criterion batches t -> updates t = length batches.
Proof.
  induction 1 as [|w g b bs t _ IH]; [reflexivity|].
  rewrite updates_app, IH. reflexivity.
Qed.

Lemma epochs_updates model criterion trainloader segs :
  0 < loader_len trainloader ->
  (forall g n, length (fst (randperm g n)) = n) ->
  Forall (fun seg => exists g,
            passes model criterion
                   (fst (loader_iter randperm collate trainloader g)) seg) segs ->
  updates (concat (map (epoch_calls trainloader) segs))
  = length segs * loader_len trainloader.
Proof.
  intros Hlen Hperm. induction 1 as [|seg segs (g & Hp) _ IH]; [reflexivity|].
  rewrite map_cons, concat_cons, updates_app, IH.
  unfold epoch_calls.
  change (CallIter :: seg ++ [CallPrint (PTrainingLoss (mean_loss trainloader seg))])
    with ([CallIter] ++ seg ++ [CallPrint (PTrainingLoss (mean_loss trainloader seg))]).
  rewrite !updates_app, (passes_updates _ _ _ _ Hp).
  rewrite loader_iter_length by assumption.
  cbn [length]. unfold updates at 1 2. cbn. lia.
Qed.

(** C4, amended: over a loader that has a batch to give, the log of the
    training cell shows the five choices of that cell: the stack of sizes
    784, 128, 64, 10 with [nn.ReLU] between the layers and
    [nn.LogSoftmax(dim=1)] at the end, [optim.SGD] at learning rate 0.003,
    5 epochs, [nn.NLLLoss] in every pass.  They are not the only
    decisions: the data cell builds the loader with [batch_size=64],
    [shuffle=True] and its transform, and the number of updates of the
    training cell, 5 times [len(trainloader)], follows from the batch
    size.  The numbers written in the training cell are those of its
    choices (the sizes, [dim=1], 0.003, 5), the 0 that [running_loss]
    starts from and the 0 and -1 of the flattening; those of the data cell
    are the six 0.5 of the transform and the batch size 64. *)
Theorem training_choices trainloader k
  (nonempty : 0 < loader_len trainloader)
  (randperm_length : forall g n, length (fst (randperm g n)) = n) :
  (exists t,
     new_calls (training_cell trainloader) k
     = CallSequential [Linear 784 128; ReLU; Linear 128 64; ReLU;
                       Linear 64 10; LogSoftmax 1]
       :: CallSGD (3 # 1000)%Q :: t /\
     epochs_log [Linear 784 128; ReLU; Linear 128 64; ReLU; Linear 64 10;
                 LogSoftmax 1] NLLLoss trainloader 5 t /\
     updates t = 5 * loader_len trainloader) /\
  loader_len trainloader
  = (ds_len (dataset trainloader) + batch_size trainloader - 1)
    / batch_size trainloader /\
  (forall k0,
     eval data_cell k0
     = mkDataLoader
         (mnist true [ToTensor;
                      Normalize [1 # 2; 1 # 2; 1 # 2]%Q [1 # 2; 1 # 2; 1 # 2]%Q])
         64 true) /\
  Notebook.numbers_of Notebook.training_source
  = ["784"; "128"; "128"; "64"; "64"; "10"; "1"; "0.003"; "5"; "0"; "0";
     "1"]%string /\
  Notebook.numbers_of Notebook.data_source
  = ["0.5"; "0.5"; "0.5"; "0.5"; "0.5"; "0.5"; "64"]%string.
Proof.
  split; [|repeat split; vm_compute; reflexivity].
  destruct (training_cell_run trainloader k) as (t & Hlog & _ & Hcalls).
  exists t. split; [apply new_calls_eq; exact Hcalls|]. split; [exact Hlog|].
  destruct Hlog as (segs & Hn & -> & Hall).
  rewrite (epochs_updates _ _ _ _ nonempty randperm_length Hall), Hn.
  reflexivity.
Qed.

End ConfigFacts.

(** C4, as stated, fails: with the five choices of the training cell, the
    framework, the dataset and the state of the kernel all the same, the
    run still depends on a sixth choice, the batch size of the loader. *)
Lemma five_choices_do_not_fix_the_run :
  ~ (forall (T : Torch) (ds : Dataset Sample) (n n' : nat) (k : Kernel),
        0 < loader_len (mkDataLoader ds n true) ->
        0 < loader_len (mkDataLoader ds n' true) ->
        map kind (new_calls (training_cell (mkDataLoader ds n true)) k)
        = map kind (new_calls (training_cell (mkDataLoader ds n' true)) k)).
Proof.
  intros H.
  specialize (H Toy.torch (@mnist Toy.torch true []) 64 32 Toy.kernel).
  assert (H64 : 0 < loader_len (mkDataLoader (@mnist Toy.torch true []) 64 true))
    by (vm_compute; lia).
  assert (H32 : 0 < loader_len (mkDataLoader (@mnist Toy.torch true []) 32 true))
    by (vm_compute; lia).
  specialize (H H64 H32).
  apply (f_equal (@length Kind)) in H. vm_compute in H. discriminate H.
Qed.

Lemma training_choices_witness :
  0 < loader_len Toy.trainloader /\
  (forall g n, length (fst (@randperm Toy.torch g n)) = n) /\
  exists t,
    new_calls (T := Toy.torch) (training_cell Toy.trainloader) Toy.kernel
    = CallSequential [Linear 784 128; ReLU; Linear 128 64; ReLU;
                      Linear 64 10; LogSoftmax 1]
      :: CallSGD (3 # 1000)%Q :: t /\
    epochs_log (T := Toy.torch)
               [Linear 784 128; ReLU; Linear 128 64; ReLU; Linear 64 10;
                LogSoftmax 1] NLLLoss Toy.trainloader 5 t /\
    updates t = 5 * loader_len Toy.trainloader.
Proof.
  split; [exact toy_loader_nonempty|]. split; [exact toy_randperm_length|].
  exact (proj1 (training_choices (T := Toy.torch) Toy.trainloader Toy.kernel
                  toy_loader_nonempty toy_randperm_length)).
Defined.

Section FrameFacts.

Context {T : Torch}.

Lemma consistent_no_step lr w mid w' x post :
(forall c, In c mid -> kind c <> KStep) ->
consistent lr w (mid ++ CallForward w' x :: post) -> w' = w.
Proof.
induction mid as [|c mid IH]; intros Hmid H; simpl in H.
- apply H.
- assert (Hc : kind c <> KStep) by (apply Hmid; left; reflexivity).
  assert (Hmid' : forall c, In c mid -> kind c <> KStep)
    by (intros c' Hin; apply Hmid; right; exact Hin).
  destruct c; try (apply IH; [exact Hmid' | exact H]).
  + apply IH; [exact Hmid' | apply H].
  + exfalso; apply Hc; reflexivity.
Qed.

Lemma consistent_step_forward lr w0 pre w g mid w' x post :
consistent lr w0 (pre ++ CallStep w g :: mid ++ CallForward w' x :: post) ->
(forall c, In c mid -> kind c <> KStep) ->
w' = stepped lr w g.
Proof.
revert w0; induction pre as [|c pre IH]; intros w0 H Hmid; simpl in H.
- destruct H as [-> H]. eapply consistent_no_step; eassumption.
- destruct c; try (eapply IH; [exact H | exact Hmid]);
    destruct H as [_ H]; eapply IH; eassumption.
Qed.

(** C5: the statements of the training loop other than
  [optimizer.zero_grad()], [loss.backward()] and [optimizer.step()]
  leave the parameters and their [.grad] as they are; and the forward
  pass that follows an update sees exactly the parameters this update
  produced. *)
Theorem parameters_change_only_in_framework_calls :
(forall v, keeps_parameters (set_running_loss v)
           /\ keeps_gradients (set_running_loss v)) /\
(forall trainloader, keeps_parameters (iterate trainloader)
                     /\ keeps_gradients (iterate trainloader)) /\
(forall images size, keeps_parameters (view images size)
                     /\ keeps_gradients (view images size)) /\
(forall model images, keeps_parameters (forward model images)
                      /\ keeps_gradients (forward model images)) /\
(forall c output labels,
    keeps_parameters (apply_criterion c output labels)
    /\ keeps_gradients (apply_criterion c output labels)) /\
(forall loss, keeps_parameters (item loss) /\ keeps_gradients (item loss)) /\
(forall v, keeps_parameters (add_running_loss v)
           /\ keeps_gradients (add_running_loss v)) /\
(keeps_parameters get_running_loss /\ keeps_gradients get_running_loss) /\
(forall v n, keeps_parameters (divide v n) /\ keeps_gradients (divide v n)) /\
(forall p, keeps_parameters (print p) /\ keeps_gradients (print p)) /\
(forall trainloader k pre w g mid w' x post,
    new_calls (training_cell trainloader) k
    = pre ++ CallStep w g :: mid ++ CallForward w' x :: post ->
    (forall c, In c mid -> kind c <> KStep) ->
    w' = stepped (3 # 1000)%Q w g).
Proof.
repeat match goal with
       | |- _ /\ _ => split
       | |- forall _, _ => intro
       end;
  try (unfold keeps_parameters, keeps_gradients, exec; intros; simpl;
       try match goal with
           | |- context [loader_iter ?r ?c ?l ?g] =>
               destruct (loader_iter r c l g)
           end; reflexivity).
match goal with H : new_calls _ _ = _ |- _ => rename H into Ht end.
destruct (training_cell_run trainloader k) as (t' & _ & Hc & Hcalls').
rewrite (new_calls_eq _ _ _ Hcalls') in Ht.
assert (Hc' : consistent (3 # 1000)%Q
                (fst (init_weights [Linear 784 128; ReLU; Linear 128 64; ReLU;
                                    Linear 64 10; LogSoftmax 1] (rng k)))
                (pre ++ CallStep w g :: mid ++ CallForward w' x :: post)).
{ rewrite <- Ht. simpl. exact Hc. }
eapply consistent_step_forward; eassumption.
Qed.

End FrameFacts.

Section GradientFacts.

Context {T : Torch}.

Lemma fresh_gradients_nil model criterion : fresh_gradients model criterion [].
Proof. intros [|? ?] ? ? ? H; discriminate H. Qed.

Lemma fresh_gradients_app model criterion t1 t2 :
fresh_gradients model criterion t1 -> fresh_gradients model criterion t2 ->
fresh_gradients model criterion (t1 ++ t2).
Proof.
intros H1 H2 pre w g post E.
apply app_eq_app in E. destruct E as (l & [[E1 E2] | [E1 E2]]).
- destruct l as [|c l].
  + rewrite app_nil_r in E1. subst t1. simpl in E2.
    destruct (H2 [] w g post (eq_sym E2)) as (pre' & batch & Hpre & Hg).
    destruct pre'; discriminate Hpre.
  + simpl in E2. inversion E2; subst c post.
    destruct (H1 pre w g l E1) as (pre' & batch & Hpre & Hg).
    exists pre', batch. split; assumption.
- destruct (H2 l w g post E2) as (pre' & batch & Hpre & Hg).
  exists (t1 ++ pre'), batch. split; [|exact Hg].
  rewrite E1, Hpre, app_assoc. reflexivity.
Qed.

Lemma fresh_gradients_other model criterion c :
kind c <> KStep -> fresh_gradients model criterion [c].
Proof.
intros Hc [|c' pre] w g post E; simpl in E.
- inversion E; subst c. exfalso; apply Hc; reflexivity.
- inversion E. destruct pre; discriminate.
Qed.

Section ZeroIsNeutral.

Hypothesis grad_add_zero : forall d, grad_add grad_zero d = d.

Lemma zeroed_then_accumulated g d : accumulated (zeroed g) d = Some d.
Proof.
destruct g as [g|]; simpl; [|reflexivity].
destruct zero_grad_to_none; simpl; [reflexivity|].
rewrite grad_add_zero. reflexivity.
Qed.

Lemma fresh_gradients_pass model criterion w g batch :
fresh_gradients model criterion (pass_calls model criterion w g batch).
Proof.
intros pre w' g' post E. unfold pass_calls in E.
rewrite zeroed_then_accumulated in E.
do 5 (destruct pre as [|? pre]; [discriminate E|];
    simpl in E; injection E as <- E).
destruct pre as [|? pre].
- simpl in E. injection E as <- <- <-.
exists [], batch. split; reflexivity.
- simpl in E. injection E as <- E.
destruct pre as [|? pre]; [discriminate E|].
simpl in E. injection E as <- E. destruct pre; discriminate E.
Qed.

Lemma fresh_gradients_passes model criterion batches t :
passes model criterion batches t -> fresh_gradients model criterion t.
Proof.
induction 1 as [|w g b bs t _ IH]; [apply fresh_gradients_nil|].
apply fresh_gradients_app; [apply fresh_gradients_pass | exact IH].
Qed.

Lemma fresh_gradients_epochs model criterion trainloader n t :
epochs_log model criterion trainloader n t ->
fresh_gradients model criterion t.
Proof.
intros (segs & _ & -> & Hall).
induction Hall as [|seg segs (g & Hp) _ IH]; [apply fresh_gradients_nil|].
rewrite map_cons, concat_cons. apply fresh_gradients_app; [|exact IH].
unfold epoch_calls.
change (CallIter :: seg ++ [CallPrint (PTrainingLoss (mean_loss trainloader seg))])
with ([CallIter] ++ seg ++ [CallPrint (PTrainingLoss (mean_loss trainloader seg))]).
apply fresh_gradients_app; [apply fresh_gradients_other; discriminate|].
apply fresh_gradients_app; [|apply fresh_gradients_other; discriminate].
eapply fresh_gradients_passes; exact Hp.
Qed.

End ZeroIsNeutral.

End GradientFacts.

Section GradientTheorem.

Context {T : Torch}.

(** C8: adding to a zero gradient giving the gradient itself, every
  [optimizer.step()] of the training cell comes right after the calls of
  a training pass and finds in [.grad] the gradient of the loss of that
  very pass; in the single learning step too, although the cell before
  it had already run a backward pass on the same parameters. *)
Theorem gradients_never_accumulate
(grad_add_zero : forall d, grad_add grad_zero d = d) :
(forall trainloader k,
    fresh_gradients [Linear 784 128; ReLU; Linear 128 64; ReLU;
                     Linear 64 10; LogSoftmax 1] NLLLoss
                    (new_calls (training_cell trainloader) k)) /\
(forall trainloader k l,
    eval (single_step_demo trainloader) k = Some l ->
    exists pre w,
      calls (exec (single_step_demo trainloader) k)
      = pre ++ [CallBackward l;
                CallPrint (PGrad (Some (loss_grad l)));
                CallStep w (Some (loss_grad l));
                CallPrint (PWeights (sgd_update (1 # 100)%Q w (loss_grad l)))]).
Proof.
split.
- intros trainloader k.
  destruct (training_cell_run trainloader k) as (t' & Hlog & _ & Hcalls').
  rewrite (new_calls_eq _ _ _ Hcalls').
  match goal with
  | |- fresh_gradients ?m ?c (?a :: ?b :: ?t) =>
      change (fresh_gradients m c ([a] ++ [b] ++ t))
  end.
  apply fresh_gradients_app; [apply fresh_gradients_other; discriminate|].
  apply fresh_gradients_app; [apply fresh_gradients_other; discriminate|].
  eapply fresh_gradients_epochs; eassumption.
- intros trainloader k l.
  unfold single_step_demo, autograd_loss_cell, backward_cell, optimizer_cell,
    single_step_cell, update_cell, next_iter, eval, exec.
  simpl.
  destruct (init_weights _ (rng k)) as [w0 g0]; simpl.
  destruct (loader_iter randperm collate trainloader g0) as [bs1 g1]; simpl.
  destruct bs1 as [|[images1 labels1] bs1]; simpl; [discriminate|].
  destruct (loader_iter randperm collate trainloader g1) as [bs2 g2]; simpl.
  destruct bs2 as [|[images2 labels2] bs2]; simpl; [discriminate|].
  intros E; injection E as <-.
  destruct zero_grad_to_none; simpl; rewrite ?grad_add_zero;
    unfold logged; simpl; repeat rewrite <- app_assoc; simpl.
  all: match goal with
       | |- exists pre w, ?c ++ ?L = _ =>
           exists (c ++ firstn (length L - 4) L), w0;
           rewrite <- app_assoc; reflexivity
       end.
Qed.

End GradientTheorem.

Lemma gradients_never_accumulate_witness :
  (forall d, @grad_add Toy.torch (@grad_zero Toy.torch) d = d) /\
  fresh_gradients (T := Toy.torch)
    [Linear 784 128; ReLU; Linear 128 64; ReLU; Linear 64 10; LogSoftmax 1]
    NLLLoss
    (new_calls (T := Toy.torch) (training_cell Toy.trainloader) Toy.kernel).
Proof.
  split; [reflexivity|].
  exact (proj1 (gradients_never_accumulate (T := Toy.torch) (fun d => eq_refl))
           Toy.trainloader Toy.kernel).
Defined.

Section LogitsFacts.

Context {T : Torch}.

Let head_stack : list Layer :=
[Linear 784 128; ReLU; Linear 128 64; ReLU; Linear 64 10].
Let log_stack : list Layer :=
[Linear 784 128; ReLU; Linear 128 64; ReLU; Linear 64 10; LogSoftmax 1].

Ltac run_loss_cell k :=
unfold cross_entropy_cell, nll_exercise_cell, autograd_loss_cell,
  next_iter, fetched_batch, eval, exec; simpl;
destruct (init_weights _ (rng k)) as [w0 g0]; simpl;
destruct (loader_iter randperm collate _ g0) as [[|[images labels] bs] g1];
simpl; intros r E; [discriminate E|]; injection E as <-;
exists images, labels; repeat split.

(** C3, amended: the value called [logits] is the raw output of the last
  [nn.Linear] only in the cell that uses [nn.CrossEntropyLoss]; in the
  two cells that use [nn.NLLLoss] the value called [logps] or [logits]
  is [nn.LogSoftmax(dim=1)] of these scores.  The three cells compute
  the same loss from the scores. *)
Theorem logits_are_raw_only_before_cross_entropy trainloader k :
(forall r, eval (cross_entropy_cell trainloader) k = Some r ->
   exists images labels,
     fetched_batch head_stack trainloader k = Some (images, labels) /\
     passed_name r = "logits"%string /\
     criterion r = CrossEntropyLoss /\
     passed r = raw_scores (weights (exec (cross_entropy_cell trainloader) k))
                           images /\
     loss r = nll_loss (log_softmax 1 (passed r)) labels) /\
(forall r, eval (nll_exercise_cell trainloader) k = Some r ->
   exists images labels,
     fetched_batch log_stack trainloader k = Some (images, labels) /\
     passed_name r = "logps"%string /\
     criterion r = NLLLoss /\
     passed r = log_softmax 1
                  (raw_scores (weights (exec (nll_exercise_cell trainloader) k))
                              images) /\
     loss r = nll_loss (passed r) labels) /\
(forall r, eval (autograd_loss_cell trainloader) k = Some r ->
   exists images labels,
     fetched_batch log_stack trainloader k = Some (images, labels) /\
     passed_name r = "logits"%string /\
     criterion r = NLLLoss /\
     passed r = log_softmax 1
                  (raw_scores (weights (exec (autograd_loss_cell trainloader) k))
                              images) /\
     loss r = nll_loss (passed r) labels).
Proof.
split; [|split]; run_loss_cell k.
Qed.

End LogitsFacts.

(** C3, as stated, fails: the cell of "Loss and Autograd together" names
    [logits] the output of [nn.LogSoftmax(dim=1)], which differs from the
    scores it is computed from. *)
Lemma logits_not_raw_in_autograd_loss_cell :
  ~ (forall (T : Torch) trainloader k r,
       eval (autograd_loss_cell trainloader) k = Some r ->
       passed_name r = "logits"%string ->
       exists images labels,
         fetched_batch [Linear 784 128; ReLU; Linear 128 64; ReLU; Linear 64 10;
                        LogSoftmax 1] trainloader k = Some (images, labels) /\
         passed r = raw_scores (weights (exec (autograd_loss_cell trainloader) k))
                               images).
Proof.
  intros H.
  destruct (H Toy.torch Toy.trainloader Toy.kernel
              (@mkLossCell Toy.torch
                 [Linear 784 128; ReLU; Linear 128 64; ReLU; Linear 64 10;
                  LogSoftmax 1] NLLLoss "logits" 10 9)
              ltac:(vm_compute; reflexivity) eq_refl) as (images & labels & Hb & Hp).
  vm_compute in Hb. injection Hb as <- <-.
  vm_compute in Hp. discriminate Hp.
Qed.

Lemma logits_are_raw_only_before_cross_entropy_witness :
  exists r,
    eval (T := Toy.torch) (autograd_loss_cell Toy.trainloader) Toy.kernel = Some r /\
    exists images labels,
      fetched_batch (T := Toy.torch)
        [Linear 784 128; ReLU; Linear 128 64; ReLU; Linear 64 10; LogSoftmax 1]
        Toy.trainloader Toy.kernel = Some (images, labels) /\
      passed_name r = "logits"%string /\
      criterion r = NLLLoss /\
      passed r = @log_softmax Toy.torch 1
                   (raw_scores (T := Toy.torch)
                      (weights (exec (T := Toy.torch)
                                  (autograd_loss_cell Toy.trainloader) Toy.kernel))
                      images) /\
      loss r = @nll_loss Toy.torch (passed r) labels.
Proof.
  eexists. split; [vm_compute; reflexivity|].
  apply (proj2 (proj2 (logits_are_raw_only_before_cross_entropy (T := Toy.torch)
                         Toy.trainloader Toy.kernel))).
  vm_compute; reflexivity.
Defined.

Section ShapeFacts.

Import Shapes.

Variable X : Type.

Lemma stack_elements (imgs : list (tensor X)) :
Forall (@mnist_image X) imgs ->
length (elements (stack_of imgs)) = 784 * length imgs.
Proof.
induction 1 as [|t imgs [_ Ht] _ IH]; [reflexivity|].
simpl in *. rewrite length_app, IH, Ht. lia.
Qed.

Lemma flatten_rows_batch (imgs : list (tensor X)) :
Forall (@mnist_image X) imgs -> 0 < length imgs ->
flatten_rows (stack_of imgs)
= Some (mkTensor [Z.of_nat (length imgs); 784%Z]
                 (elements (stack_of imgs))).
Proof.
intros Hall Hpos.
unfold flatten_rows, view_as, numel. rewrite (stack_elements _ Hall).
unfold shape_0, stack_of at 1. cbn [size hd_error].
set (b := length imgs) in *.
assert (Hb : (0 < Z.of_nat b)%Z) by lia.
unfold infer_size. cbn [existsb filter count_occ negb].
replace (Z.ltb (Z.of_nat b) (-1)) with false by (symmetry; apply Z.ltb_ge; lia).
replace (Z.eqb (Z.of_nat b) (-1)) with false by (symmetry; apply Z.eqb_neq; lia).
destruct (Z.eq_dec (Z.of_nat b) (-1)) as [E|_]; [lia|].
cbn [orb negb numel_of fold_right map Z.ltb Z.eqb Z.compare Z.eq_dec].
destruct (Z.eq_dec (-1) (-1)) as [_|E]; [|congruence].
rewrite Z.mul_1_r.
replace (Z.of_nat (784 * b)) with (784 * Z.of_nat b)%Z by lia.
rewrite Z.mod_mul, Z.div_mul by lia.
replace (Z.ltb 0 (Z.of_nat b)) with true by (symmetry; apply Z.ltb_lt; lia).
simpl.
replace (Z.eqb (Z.of_nat b) (-1)) with false by (symmetry; apply Z.eqb_neq; lia).
reflexivity.
Qed.

Lemma resize_keeps_exactly_64 (fill : nat -> X) (imgs : list (tensor X)) :
Forall (@mnist_image X) imgs ->
(elements (resize_to fill (stack_of imgs) [64; 784]%Z)
 = elements (stack_of imgs) <-> length imgs = 64).
Proof.
intros Hall. pose proof (stack_elements _ Hall) as Hlen.
unfold resize_to. cbn [elements].
set (els := elements (stack_of imgs)) in *.
set (n := Z.to_nat (numel_of [64; 784]%Z)).
assert (Hn : n = 784 * 64) by (subst n; cbn [numel_of fold_right]; lia).
split.
- intros E. apply (f_equal (@length X)) in E.
  rewrite length_app, length_firstn, length_map, length_seq in E. lia.
- intros Hb. rewrite Hb in Hlen.
  replace (n - length els) with 0 by lia. cbn [seq map].
  rewrite app_nil_r. apply firstn_all2. lia.
Qed.

Lemma stack_size (imgs : list (tensor X)) :
Forall (@mnist_image X) imgs -> 0 < length imgs ->
size (stack_of imgs) = [Z.of_nat (length imgs); 1; 28; 28]%Z.
Proof.
intros Hall Hpos. destruct Hall as [|t imgs [Ht _] _]; [inversion Hpos|].
unfold stack_of. cbn [size]. rewrite Ht. reflexivity.
Qed.

Lemma first_batch_of_64 (RNG : Type) (randperm : RNG -> nat -> list nat * RNG)
(ds : Dataset (tensor X)) (g : RNG) :
64 <= ds_len ds ->
(forall g n, length (fst (randperm g n)) = n) ->
(forall i, mnist_image (getitem ds i)) ->
exists imgs,
  hd_error (fst (loader_iter randperm (@stack_of X)
                             (mkDataLoader ds 64 true) g))
  = Some (stack_of imgs) /\
  length imgs = 64 /\ Forall (@mnist_image X) imgs.
Proof.
intros Hlen Hperm Himg. unfold loader_iter, sampler. cbn [shuffle dataset batch_size].
specialize (Hperm g (ds_len ds)).
destruct (randperm g (ds_len ds)) as [idx g']. cbn [fst] in *.
destruct (batch_sampler_first 64 idx) as (rest & ->); [lia|lia|].
exists (map (getitem ds) (firstn 64 idx)). split; [reflexivity|]. split.
- rewrite length_map, length_firstn. lia.
- apply Forall_forall. intros t Hin. apply in_map_iff in Hin.
  destruct Hin as (i & <- & _). apply Himg.
Qed.

(** C10: [images.view(images.shape[0], -1)] turns a batch of any
  positive number of 1 x 28 x 28 images into that many rows of 784 and
  keeps its elements; [images.resize_(64, 784)] keeps the elements of
  such a batch exactly when it holds 64 images; and with
  [batch_size=64] the first batch of an iteration over at least 64
  images holds 64 of them. *)
Theorem flattening_preconditions :
(forall imgs : list (tensor X),
    Forall (@mnist_image X) imgs -> 0 < length imgs ->
    flatten_rows (stack_of imgs)
    = Some (mkTensor [Z.of_nat (length imgs); 784%Z]
                     (elements (stack_of imgs)))) /\
(forall (fill : nat -> X) (imgs : list (tensor X)),
    Forall (@mnist_image X) imgs ->
    (elements (resize_to fill (stack_of imgs) [64; 784]%Z)
     = elements (stack_of imgs) <-> length imgs = 64)) /\
(forall (RNG : Type) (randperm : RNG -> nat -> list nat * RNG)
        (ds : Dataset (tensor X)) (g : RNG) (fill : nat -> X),
    64 <= ds_len ds ->
    (forall g n, length (fst (randperm g n)) = n) ->
    (forall i, mnist_image (getitem ds i)) ->
    exists images,
      hd_error (fst (loader_iter randperm (@stack_of X)
                                 (mkDataLoader ds 64 true) g))
      = Some images /\
      size images = [64; 1; 28; 28]%Z /\
      resize_to fill images [64; 784]%Z
      = mkTensor [64; 784]%Z (elements images)).
Proof.
split; [exact flatten_rows_batch|]. split; [exact resize_keeps_exactly_64|].
intros RNG randperm ds g fill Hlen Hperm Himg.
destruct (first_batch_of_64 RNG randperm ds g Hlen Hperm Himg)
  as (imgs & Hhd & Hn & Hall).
exists (stack_of imgs). split; [exact Hhd|]. split.
- rewrite (stack_size _ Hall) by lia. rewrite Hn. reflexivity.
- pose proof (proj2 (resize_keeps_exactly_64 fill imgs Hall) Hn) as E.
  unfold resize_to in *. cbn [elements] in E. rewrite E. reflexivity.
Qed.

End ShapeFacts.

Lemma toy_batch_images n : Forall (@Shapes.mnist_image Z) (repeat Toy.image n).
Proof.
  apply Forall_forall. intros t Hin. apply repeat_spec in Hin. subst t.
  split; [reflexivity | apply repeat_length].
Qed.

Lemma flattening_preconditions_witness :
  Shapes.flatten_rows (Shapes.stack_of (repeat Toy.image 32))
  = Some (Shapes.mkTensor [32; 784]%Z
            (Shapes.elements (Shapes.stack_of (repeat Toy.image 32)))) /\
  Shapes.elements
    (Shapes.resize_to (fun _ => 0%Z) (Shapes.stack_of (repeat Toy.image 32))
                      [64; 784]%Z)
  <> Shapes.elements (Shapes.stack_of (repeat Toy.image 32)) /\
  exists images,
    hd_error (fst (loader_iter Toy.in_order (@Shapes.stack_of Z)
                               (mkDataLoader Toy.images 64 true) tt))
    = Some images /\
    Shapes.size images = [64; 1; 28; 28]%Z /\
    Shapes.resize_to (fun _ => 0%Z) images [64; 784]%Z
    = Shapes.mkTensor [64; 784]%Z (Shapes.elements images).
Proof.
  split; [|split].
  - apply (proj1 (flattening_preconditions Z) (repeat Toy.image 32)
             (toy_batch_images 32)).
    rewrite repeat_length. lia.
  - intros E.
    apply (proj1 (proj2 (flattening_preconditions Z)) (fun _ => 0%Z)
             (repeat Toy.image 32) (toy_batch_images 32)) in E.
    rewrite repeat_length in E. discriminate E.
  - apply (proj2 (proj2 (flattening_preconditions Z)) unit Toy.in_order
             Toy.images tt (fun _ => 0%Z)).
    + simpl. lia.
    + intros g n. apply length_seq.
    + intros i. split; [reflexivity | apply repeat_length].
Defined.

Lemma parameters_change_only_in_framework_calls_witness :
  exists pre mid post,
    new_calls (T := Toy.torch) (training_cell Toy.trainloader) Toy.kernel
    = pre ++ @CallStep Toy.torch 6 (Some 9) :: mid ++ @CallForward Toy.torch 0 9 :: post /\
    (forall c, In c mid -> kind c <> KStep) /\
    (0 : @Weights Toy.torch) = @stepped Toy.torch (3 # 1000)%Q 6 (Some 9).
Proof.
  exists (firstn 8 (new_calls (T := Toy.torch) (training_cell Toy.trainloader)
                      Toy.kernel)),
         [CallItem (T := Toy.torch) 9; @CallView Toy.torch 9 [9%Z; (-1)%Z]; @CallZeroGrad Toy.torch],
         (skipn 13 (new_calls (T := Toy.torch) (training_cell Toy.trainloader)
                      Toy.kernel)).
  assert (E : new_calls (T := Toy.torch) (training_cell Toy.trainloader) Toy.kernel
              = firstn 8 (new_calls (T := Toy.torch)
                            (training_cell Toy.trainloader) Toy.kernel)
                ++ @CallStep Toy.torch 6 (Some 9)
                :: [CallItem (T := Toy.torch) 9; @CallView Toy.torch 9 [9%Z; (-1)%Z];
                    @CallZeroGrad Toy.torch]
                ++ @CallForward Toy.torch 0 9
                :: skipn 13 (new_calls (T := Toy.torch)
                               (training_cell Toy.trainloader) Toy.kernel))
    by (vm_compute; reflexivity).
  assert (Hmid : forall c : @Call Toy.torch,
             In c [CallItem (T := Toy.torch) 9; @CallView Toy.torch 9 [9%Z; (-1)%Z];
                   @CallZeroGrad Toy.torch] -> kind c <> KStep)
    by (intros c [<-|[<-|[<-|[]]]]; discriminate).
  split; [exact E|]. split; [exact Hmid|].
  exact (proj2 (proj2 (proj2 (proj2 (proj2 (proj2 (proj2 (proj2 (proj2 (proj2
           (parameters_change_only_in_framework_calls (T := Toy.torch)))))))))))
           Toy.trainloader Toy.kernel _ _ _ _ _ _ _ E Hmid).
Defined.

Section FailureFacts.

Context {T : Torch} {F : Failures}.

Lemma eval_bind {A B} (c : Cell A) (f : A -> Cell B) k :
  eval (bind c f) k = eval (f (eval c k)) (exec c k).
Proof. unfold exec, eval; simpl. destruct (c k); reflexivity. Qed.

Lemma extends_log_intro {A} (d : Cell A) :
  (forall k, exists t, calls (exec d k) = calls k ++ t) -> extends_log d.
Proof.
  intros H k. destruct (H k) as (t & E). rewrite (new_calls_eq _ _ _ E).
  exact E.
Qed.

Lemma extends_log_ret {A} (a : A) : extends_log (ret a).
Proof.
  apply extends_log_intro. intros k. exists []. simpl. rewrite app_nil_r.
  reflexivity.
Qed.

Lemma new_calls_bind {A B} (d : Cell A) (g : A -> Cell B) k :
  extends_log d -> (forall a, extends_log (g a)) ->
  new_calls (bind d g) k
  = new_calls d k ++ new_calls (g (eval d k)) (exec d k).
Proof.
  intros Hd Hg. apply new_calls_eq.
  rewrite exec_bind, (Hg (eval d k) (exec d k)), (Hd k), app_assoc.
  reflexivity.
Qed.

Lemma extends_log_bind {A B} (d : Cell A) (g : A -> Cell B) :
  extends_log d -> (forall a, extends_log (g a)) -> extends_log (bind d g).
Proof.
  intros Hd Hg. apply extends_log_intro. intros k.
  exists (new_calls d k ++ new_calls (g (eval d k)) (exec d k)).
  rewrite exec_bind, (Hg (eval d k) (exec d k)), (Hd k), app_assoc.
  reflexivity.
Qed.

Lemma extends_log_for_each {A} (l : list A) (body : A -> Cell unit) :
  (forall a, extends_log (body a)) -> extends_log (for_each l body).
Proof.
  intros Hb. induction l as [|a l IH]; simpl for_each.
  - apply extends_log_ret.
  - apply extends_log_bind; [apply Hb | intros _; exact IH].
Qed.

(** Each statement of the interface adds at most one call. *)
Lemma extends_log_step {A} (d : Cell A) :
  (forall k, calls (exec d k) = calls k \/
             exists c, calls (exec d k) = calls k ++ [c]) ->
  extends_log d.
Proof.
  intros H. apply extends_log_intro. intros k. destruct (H k) as [E|(c & E)].
  - exists []. rewrite app_nil_r. exact E.
  - exists [c]. exact E.
Qed.

Ltac one_call :=
  apply extends_log_step; intros ?k; unfold exec; simpl;
  repeat match goal with
         | |- context [init_weights ?l ?g] => destruct (init_weights l g)
         | |- context [loader_iter ?r ?c ?l ?g] => destruct (loader_iter r c l g)
         end;
  simpl; solve [left; reflexivity | right; eexists; reflexivity].

Ltac grow :=
  repeat first
    [ apply extends_log_ret
    | apply extends_log_for_each; intros
    | apply extends_log_bind; [|intros]
    | match goal with
      | |- extends_log (match ?x with _ => _ end) => destruct x
      | |- extends_log (let (_, _) := ?x in _) => destruct x
      end
    | one_call ].

Lemma training_pass_extends_log model criterion optimizer batch :
  extends_log (training_pass (M := Cell) model criterion optimizer batch).
Proof. unfold training_pass. grow. Qed.

Lemma epoch_extends_log model criterion optimizer trainloader e :
  extends_log (epoch (M := Cell) model criterion optimizer trainloader e).
Proof.
  unfold epoch. grow. apply training_pass_extends_log.
Qed.

Lemma next_iter_extends_log trainloader :
  extends_log (next_iter (M := Cell) trainloader).
Proof. unfold next_iter. grow. Qed.

Lemma loss_cells_extend_log trainloader :
  extends_log (cross_entropy_cell (M := Cell) trainloader) /\
  extends_log (nll_exercise_cell (M := Cell) trainloader) /\
  extends_log (autograd_loss_cell (M := Cell) trainloader).
Proof.
  unfold cross_entropy_cell, nll_exercise_cell, autograd_loss_cell, next_iter.
  repeat split; grow.
Qed.

Lemma single_step_cell_extends_log model criterion trainloader :
  extends_log (single_step_cell (M := Cell) model criterion trainloader).
Proof. unfold single_step_cell, next_iter. grow. Qed.

Lemma backward_cell_extends_log l : extends_log (backward_cell (M := Cell) l).
Proof. unfold backward_cell. grow. Qed.

Lemma update_cell_extends_log o : extends_log (update_cell (M := Cell) o).
Proof. unfold update_cell. grow. Qed.

Lemma first_raise_app t1 t2 :
  first_raise (t1 ++ t2)
  = match first_raise t1 with
    | Some x => Some x
    | None => match first_raise t2 with
              | Some (pre, c, e) => Some (t1 ++ pre, c, e)
              | None => None
              end
    end.
Proof.
  induction t1 as [|c t1 IH]; simpl.
  - destruct (first_raise t2) as [[[pre c] e]|]; reflexivity.
  - destruct (raises c); [reflexivity|]. rewrite IH.
    destruct (first_raise t1) as [[[pre c'] e]|]; [reflexivity|].
    destruct (first_raise t2) as [[[pre c'] e]|]; reflexivity.
Qed.

(** A statement that calls nothing and returns. *)
Lemma follows_silent {A} (m : Fallible A) (d : Cell A) :
  (forall k, calls (exec d k) = calls k) ->
  (forall k, m k = (inr (eval d k), exec d k)) ->
  follows m d.
Proof.
  intros Hs Hm k. unfold new_calls. rewrite Hs, skipn_all. simpl. apply Hm.
Qed.

Lemma follows_ret {A} (a : A) : follows (ret a) (ret a).
Proof. apply follows_silent; reflexivity. Qed.

Lemma follows_pure_stmt {A} (body : Cell A) :
  (forall k, calls (exec body k) = calls k) -> follows (pure_stmt body) body.
Proof.
  intros Hs. apply follows_silent; [exact Hs|].
  intros k. unfold pure_stmt, eval, exec. destruct (body k); reflexivity.
Qed.

Lemma follows_divide v n : n <> 0 -> follows (divide v n) (divide v n).
Proof.
  intros Hn. apply follows_silent; [reflexivity|].
  intros k. simpl. destruct (Nat.eqb_spec n 0); [contradiction | reflexivity].
Qed.

Lemma follows_attempt {A} (c : Kernel -> Call) (body : Cell A) :
  (forall k, calls (exec body k) = calls k ++ [c k]) ->
  follows (attempt c body) body.
Proof.
  intros Hlog k. rewrite (new_calls_eq _ _ _ (Hlog k)). simpl.
  unfold attempt. destruct (raises (c k)) as [e|].
  - eexists. split; [reflexivity|]. reflexivity.
  - unfold eval, exec. destruct (body k); reflexivity.
Qed.

Lemma follows_bind_post {A B} (P : A -> Prop)
  (m : Fallible A) (f : A -> Fallible B) (d : Cell A) (g : A -> Cell B) :
  follows m d -> extends_log d -> (forall k, P (eval d k)) ->
  (forall a, extends_log (g a)) ->
  (forall a, P a -> follows (f a) (g a)) ->
  follows (bind m f) (bind d g).
Proof.
  intros Hm Hd HP Hg Hf k.
  rewrite new_calls_bind, first_raise_app by assumption.
  specialize (Hm k).
  destruct (first_raise (new_calls d k)) as [[[pre c] e]|].
  - destruct Hm as (k' & Em & Ec). exists k'. split; [|exact Ec].
    simpl. rewrite Em. reflexivity.
  - specialize (Hf (eval d k) (HP k) (exec d k)).
    destruct (first_raise (new_calls (g (eval d k)) (exec d k)))
      as [[[pre c] e]|].
    + destruct Hf as (k' & Ef & Ec). exists k'. split.
      * simpl. rewrite Hm. exact Ef.
      * rewrite Ec, (Hd k), <- !app_assoc. reflexivity.
    + rewrite eval_bind, exec_bind. simpl. rewrite Hm. exact Hf.
Qed.

Lemma follows_bind {A B}
  (m : Fallible A) (f : A -> Fallible B) (d : Cell A) (g : A -> Cell B) :
  follows m d -> extends_log d -> (forall a, extends_log (g a)) ->
  (forall a, follows (f a) (g a)) ->
  follows (bind m f) (bind d g).
Proof.
  intros Hm Hd Hg Hf.
  apply (follows_bind_post (fun _ => True)); auto.
Qed.

Lemma follows_for_each {A} (l : list A) (body : A -> Fallible unit)
  (dbody : A -> Cell unit) :
  (forall a, extends_log (dbody a)) ->
  (forall a, follows (body a) (dbody a)) ->
  follows (for_each l body) (for_each l dbody).
Proof.
  intros He Hb. induction l as [|a l IH]; simpl for_each.
  - apply follows_ret.
  - apply follows_bind; [apply Hb | apply He | | intros _; exact IH].
    intros _. apply extends_log_for_each. exact He.
Qed.

Ltac logs_call :=
  intros ?k; unfold exec; simpl;
  repeat match goal with
         | |- context [init_weights ?l ?g] => destruct (init_weights l g)
         | |- context [loader_iter ?r ?c ?l ?g] => destruct (loader_iter r c l g)
         end;
  reflexivity.

Ltac follow :=
  repeat first
    [ apply follows_ret
    | apply follows_pure_stmt; logs_call
    | apply follows_attempt; logs_call
    | apply follows_divide; assumption
    | apply follows_bind; [ | grow | intros; grow | intros]
    | match goal with
      | |- follows (match ?x with _ => _ end) _ => destruct x
      | |- follows (let (_, _) := ?x in _) _ => destruct x
      end ].

Lemma training_pass_follows model criterion optimizer batch :
  follows (training_pass model criterion optimizer batch)
          (training_pass model criterion optimizer batch).
Proof. unfold training_pass. follow. Qed.

Lemma data_cell_follows : follows data_cell data_cell.
Proof. unfold data_cell. follow. Qed.

Lemma backward_cell_follows l : follows (backward_cell l) (backward_cell l).
Proof. unfold backward_cell. follow. Qed.

Lemma update_cell_follows o : follows (update_cell o) (update_cell o).
Proof. unfold update_cell. follow. Qed.

Lemma next_iter_follows trainloader :
  follows (next_iter trainloader) (next_iter trainloader).
Proof. unfold next_iter. follow. Qed.

Section NonEmptyLoader.

Variable trainloader : DataLoader Sample.
Hypothesis nonempty : 0 < loader_len trainloader.
Hypothesis randperm_length : forall g n, length (fst (randperm g n)) = n.

Lemma next_iter_some k : eval (next_iter trainloader) k <> None.
Proof.
  unfold next_iter, eval. simpl.
  pose proof (loader_iter_nonempty _ _ _ randperm collate trainloader (rng k)
                nonempty randperm_length) as Hne.
  destruct (loader_iter randperm collate trainloader (rng k)) as [[|b bs] g];
    simpl in *; congruence.
Qed.

Ltac fetch :=
  apply (follows_bind_post (fun b => b <> None));
  [ apply next_iter_follows
  | apply next_iter_extends_log
  | apply next_iter_some
  | intros; grow
  | intros [[?images ?labels]|] ?Hb; [|congruence] ].

Lemma loss_cells_follow :
  follows (cross_entropy_cell trainloader) (cross_entropy_cell trainloader) /\
  follows (nll_exercise_cell trainloader) (nll_exercise_cell trainloader) /\
  follows (autograd_loss_cell trainloader) (autograd_loss_cell trainloader).
Proof.
  unfold cross_entropy_cell, nll_exercise_cell, autograd_loss_cell.
  repeat split;
    (apply follows_bind; [follow | grow | intros; unfold next_iter; grow | intros];
     cbv zeta; fetch; follow).
Qed.

Lemma single_step_cell_follows model criterion :
  follows (single_step_cell model criterion trainloader)
          (single_step_cell model criterion trainloader).
Proof.
  unfold single_step_cell.
  apply follows_bind; [follow | grow | intros; unfold next_iter; grow | intros].
  apply follows_bind; [follow | grow | intros; unfold next_iter; grow | intros].
  fetch. follow.
Qed.

Lemma single_step_tail_extends_log model criterion optimizer :
  extends_log
    (l <- single_step_cell (M := Cell) model criterion trainloader ;;
     match l with
     | None => ret None
     | Some l => update_cell optimizer ;; ret (Some l)
     end).
Proof.
  apply extends_log_bind; [apply single_step_cell_extends_log|].
  intros [l|]; [|grow].
  apply extends_log_bind; [apply update_cell_extends_log | intros; grow].
Qed.

Lemma single_step_demo_follows :
  follows (single_step_demo trainloader) (single_step_demo trainloader).
Proof.
  unfold single_step_demo, optimizer_cell.
  destruct loss_cells_follow as (_ & _ & H3).
  destruct (loss_cells_extend_log trainloader) as (_ & _ & E3).
  apply follows_bind; [exact H3 | exact E3 | | ].
  - intros [r|]; [|grow].
    apply extends_log_bind; [apply backward_cell_extends_log|intros u].
    apply extends_log_bind; [grow|intros o].
    apply single_step_tail_extends_log.
  - intros [r|]; [|follow].
    apply follows_bind;
      [apply backward_cell_follows | apply backward_cell_extends_log | | intros u].
    + intros u. apply extends_log_bind; [grow|intros o].
      apply single_step_tail_extends_log.
    + apply follows_bind;
        [follow | grow | intros o; apply single_step_tail_extends_log | intros o].
      apply follows_bind;
        [apply single_step_cell_follows | apply single_step_cell_extends_log
        | | ].
      * intros [l|]; [|grow].
        apply extends_log_bind; [apply update_cell_extends_log | intros; grow].
      * intros [l|]; [|follow].
        apply follows_bind;
          [apply update_cell_follows | apply update_cell_extends_log
          | intros; grow | intros; follow].
Qed.

Lemma epoch_follows model criterion optimizer e :
  follows (epoch model criterion optimizer trainloader e)
          (epoch model criterion optimizer trainloader e).
Proof.
  assert (Hn : loader_len trainloader <> 0) by lia.
  unfold epoch.
  apply follows_bind; [follow | grow | | intros].
  { intros. grow. apply training_pass_extends_log. }
  apply follows_bind; [follow | grow | | intros].
  { intros. grow. apply training_pass_extends_log. }
  apply follows_bind; [ | | intros; grow | intros; follow].
  - apply follows_for_each;
      [intros; apply training_pass_extends_log
      | intros; apply training_pass_follows].
  - apply extends_log_for_each. intros; apply training_pass_extends_log.
Qed.

Lemma training_cell_follows :
  follows (training_cell trainloader) (training_cell trainloader).
Proof.
  unfold training_cell.
  apply follows_bind; [follow | grow | | intros].
  { intros. apply extends_log_bind; [grow|intros].
    apply extends_log_for_each. intros. apply epoch_extends_log. }
  cbv zeta.
  apply follows_bind; [follow | grow | | intros].
  { intros. apply extends_log_for_each. intros. apply epoch_extends_log. }
  apply follows_for_each; [intros; apply epoch_extends_log | intros; apply epoch_follows].
Qed.

End NonEmptyLoader.

End FailureFacts.

Section FailureTheorem.

Context {T : Torch} {F : Failures}.

Open Scope string_scope.

(** C6: the code of the cells uses eight keywords of Python and no other:
    [as], [True], [from], [for], [in], [else] (of the [for] loop),
    [import] and [with]; so no cell holds [class], [try], [except],
    [finally], [raise], [assert] or [if].  With that, for a loader that
    yields a batch, every embedded cell follows the framework: when no
    call of the run raises, the cell returns what it returns in the
    reading without failures, in the same state; when a call raises, the
    cell ends with the exception of the first call that raises, unchanged,
    and its log stops after that call.  The cells' own exceptions
    ([ZeroDivisionError], [StopIteration]) do not occur. *)
Theorem failures_are_the_frameworks (trainloader : DataLoader Sample)
  (nonempty : 0 < loader_len trainloader)
  (randperm_length : forall g n, length (fst (randperm g n)) = n) :
  Notebook.keywords_used
  = ["as"; "True"; "from"; "for"; "in"; "else"; "import"; "with"] /\
  follows data_cell data_cell /\
  follows (cross_entropy_cell trainloader) (cross_entropy_cell trainloader) /\
  follows (nll_exercise_cell trainloader) (nll_exercise_cell trainloader) /\
  follows (autograd_loss_cell trainloader) (autograd_loss_cell trainloader) /\
  follows (single_step_demo trainloader) (single_step_demo trainloader) /\
  follows (training_cell trainloader) (training_cell trainloader).
Proof.
  split; [vm_compute; reflexivity|].
  split; [apply data_cell_follows|].
  pose proof (loss_cells_follow trainloader nonempty randperm_length)
    as (H1 & H2 & H3).
  repeat split; try assumption.
  - apply single_step_demo_follows; assumption.
  - apply training_cell_follows; assumption.
Qed.

End FailureTheorem.

Lemma failures_are_the_frameworks_witness :
  0 < loader_len Toy.trainloader /\
  (forall g n, length (fst (@randperm Toy.torch g n)) = n) /\
  exists k',
    training_cell (M := Fallible (F := Toy.zero_grad_fails)) Toy.trainloader
                  Toy.kernel
    = (inl (@FrameworkError Toy.torch Toy.zero_grad_fails
                            "RuntimeError"%string), k') /\
    calls k'
    = calls Toy.kernel
      ++ [@CallSequential Toy.torch [Linear 784 128; ReLU; Linear 128 64; ReLU;
                          Linear 64 10; LogSoftmax 1];
          CallSGD (3 # 1000)%Q; CallIter;
          @CallView Toy.torch 9 [9; -1]%Z]
      ++ [CallZeroGrad].
Proof.
  split; [exact toy_loader_nonempty|].
  split; [exact toy_randperm_length|].
  pose proof (failures_are_the_frameworks (T := Toy.torch)
                (F := Toy.zero_grad_fails) Toy.trainloader
                toy_loader_nonempty toy_randperm_length) as H.
  destruct H as (_ & _ & _ & _ & _ & _ & H).
  exact (H Toy.kernel).
Defined.

Section InterfaceFacts.

Context {T : Torch}.

Lemma quiet_step {A} (d : Cell A) :
  (forall k, calls (exec d k) = calls k \/
             exists c, kind c <> KMNIST /\ calls (exec d k) = calls k ++ [c]) ->
  extends_log d /\ never_downloads d.
Proof.
  intros H. split.
  - apply extends_log_step. intros k.
    destruct (H k) as [E|(c & _ & E)]; [left; exact E | right; exists c; exact E].
  - intros k. destruct (H k) as [E|(c & Hc & E)].
    + unfold new_calls. rewrite E, skipn_all. constructor.
    + rewrite (new_calls_eq _ _ _ E). constructor; [exact Hc | constructor].
Qed.

Lemma quiet_ret {A} (a : A) :
  extends_log (ret a) /\ never_downloads (ret a).
Proof. apply quiet_step. intros k. left. reflexivity. Qed.

Lemma quiet_bind {A B} (d : Cell A) (g : A -> Cell B) :
  extends_log d /\ never_downloads d ->
  (forall a, extends_log (g a) /\ never_downloads (g a)) ->
  extends_log (bind d g) /\ never_downloads (bind d g).
Proof.
  intros [Ed Nd] Hg. split.
  - apply extends_log_bind; [exact Ed | intros a; apply Hg].
  - intros k. rewrite new_calls_bind; [|exact Ed | intros a; apply Hg].
    apply Forall_app. split; [apply Nd | apply Hg].
Qed.

Lemma quiet_for_each {A} (l : list A) (body : A -> Cell unit) :
  (forall a, extends_log (body a) /\ never_downloads (body a)) ->
  extends_log (for_each l body) /\ never_downloads (for_each l body).
Proof.
  intros Hb. induction l as [|a l IH]; simpl for_each.
  - apply quiet_ret.
  - apply quiet_bind; [apply Hb | intros _; exact IH].
Qed.

Ltac quiet_call :=
  apply quiet_step; intros ?k; unfold exec; simpl;
  repeat match goal with
         | |- context [init_weights ?l ?g] => destruct (init_weights l g)
         | |- context [loader_iter ?r ?c ?l ?g] => destruct (loader_iter r c l g)
         end;
  simpl;
  solve [ left; reflexivity
        | right; eexists; split; [|reflexivity]; simpl; discriminate ].

Ltac quiet :=
  repeat first
    [ apply quiet_ret
    | apply quiet_for_each; intros
    | apply quiet_bind; [|intros]
    | match goal with
      | |- _ (match ?x with _ => _ end) /\ _ => destruct x
      | |- _ (let (_, _) := ?x in _) /\ _ => destruct x
      end
    | progress unfold training_pass, epoch, next_iter, backward_cell,
        optimizer_cell, update_cell, single_step_cell
    | quiet_call ].

Lemma loss_cells_never_download trainloader :
  never_downloads (cross_entropy_cell trainloader) /\
  never_downloads (nll_exercise_cell trainloader) /\
  never_downloads (autograd_loss_cell trainloader).
Proof.
  unfold cross_entropy_cell, nll_exercise_cell, autograd_loss_cell.
  repeat split;
    match goal with
    | |- never_downloads ?d =>
        assert (H : extends_log d /\ never_downloads d) by quiet; apply H
    end.
Qed.

Lemma single_step_demo_never_downloads trainloader :
  never_downloads (single_step_demo trainloader).
Proof.
  assert (H : extends_log (single_step_demo (M := Cell) trainloader) /\
              never_downloads (single_step_demo trainloader)).
  { unfold single_step_demo, autograd_loss_cell. quiet. }
  apply H.
Qed.

Lemma training_cell_never_downloads trainloader :
  never_downloads (training_cell trainloader).
Proof.
  assert (H : extends_log (training_cell (M := Cell) trainloader) /\
              never_downloads (training_cell trainloader)).
  { unfold training_cell. quiet. }
  apply H.
Qed.

Lemma data_cell_calls k :
  new_calls data_cell k
  = [CallMNIST "~/.pytorch/MNIST_data/" true true
       [ToTensor; Normalize [1 # 2; 1 # 2; 1 # 2] [1 # 2; 1 # 2; 1 # 2]]%Q;
     CallDataLoader 64 true].
Proof.
  apply new_calls_eq. unfold exec. simpl. rewrite <- app_assoc. reflexivity.
Qed.

Open Scope string_scope.

(** C7: what the cells import is five modules of the framework and the
    plotting helper, which the specification counts among the external
    calls; their one magic is [%matplotlib inline]; everything they call
    is one of thirty-five names, none of which opens, reads, writes or
    parses a file ([open], [torch.save], [torch.load], a [sys] or [os]
    call are not among them); their string literals are six texts to
    print and one path, and the one line that holds the path is the one
    line that calls [datasets.MNIST].  Run, the data cell makes two calls,
    [datasets.MNIST] with that path and [download=True], then the
    [DataLoader]; no other embedded cell calls [datasets.MNIST]. *)
Theorem only_the_framework_touches_files (trainloader : DataLoader Sample) :
  Notebook.imports
  = ["import torch"; "from torch import nn";
     "import torch.nn.functional as F";
     "from torchvision import datasets, transforms";
     "from torch import optim"; "import helper"] /\
  Notebook.magics = ["%matplotlib inline"] /\
  Notebook.called
  = ["transforms.Compose"; "transforms.ToTensor"; "transforms.Normalize";
     "datasets.MNIST"; "torch.utils.data.DataLoader";
     "nn.CrossEntropyLoss"; "torch.randn"; "y.mean"; "z.backward";
     "nn.Sequential"; "nn.ReLU"; "nn.Linear"; "nn.LogSoftmax";
     "nn.NLLLoss"; "optim.SGD"; "model.parameters"; "range";
     "images.view"; "optimizer.zero_grad"; "loss.backward";
     "optimizer.step"; "loss.item"; "len"; ".view"; "torch.no_grad";
     "model.forward"; "F.softmax"; "helper.view_classify"; "img.view";
     "model"; "criterion"; "print"; "next"; "iter"; "images.resize_"] /\
  Notebook.literals
  = ["~/.pytorch/MNIST_data/"; "Before backward pass: \n";
     "After backward pass: \n"; "Gradient -"; "Updated weights - ";
     "Training loss: {running_loss/len(trainloader)}";
     "Initial weights - "] /\
  Notebook.lines_calling "datasets.MNIST"
  = ["trainset = datasets.MNIST('~/.pytorch/MNIST_data/', download=True, train=True, transform=transform)"] /\
  Notebook.lines_with_literal "~/.pytorch/MNIST_data/"
  = Notebook.lines_calling "datasets.MNIST" /\
  (forall k,
     new_calls data_cell k
     = [CallMNIST "~/.pytorch/MNIST_data/" true true
          [ToTensor; Normalize [1 # 2; 1 # 2; 1 # 2] [1 # 2; 1 # 2; 1 # 2]]%Q;
        CallDataLoader 64 true]) /\
  never_downloads (cross_entropy_cell trainloader) /\
  never_downloads (nll_exercise_cell trainloader) /\
  never_downloads (autograd_loss_cell trainloader) /\
  never_downloads (single_step_demo trainloader) /\
  never_downloads (training_cell trainloader).
Proof.
  split; [vm_compute; reflexivity|].
  split; [vm_compute; reflexivity|].
  split; [vm_compute; reflexivity|].
  split; [vm_compute; reflexivity|].
  split; [vm_compute; reflexivity|].
  split; [vm_compute; reflexivity|].
  split; [exact data_cell_calls|].
  destruct (loss_cells_never_download trainloader) as (H1 & H2 & H3).
  repeat split; try assumption.
  - apply single_step_demo_never_downloads.
  - apply training_cell_never_downloads.
Qed.

End InterfaceFacts.

Section MeanFacts.

Context {T : Torch}.


End MeanFacts.


Section LossCellFacts.

Context {T : Torch}.

Lemma backward_cell_calls l k :
calls (exec (backward_cell l) k)
= calls k ++ [CallPrint (PGrad (grad k)); CallBackward l;
              CallPrint (PGrad (accumulated (grad k) (loss_grad l)))].
Proof.
unfold backward_cell, exec, logged; simpl. repeat rewrite <- app_assoc.
reflexivity.
Qed.

Lemma loss_cell_leaves_no_gradient trainloader k :
grad (exec (autograd_loss_cell trainloader) k) = None.
Proof.
unfold autograd_loss_cell, next_iter, exec. simpl.
destruct (init_weights _ (rng k)) as [w0 g0]; simpl.
destruct (loader_iter randperm collate trainloader g0)
  as [[|[images labels] bs] g1]; reflexivity.
Qed.

(** X4: run after the cell of "Loss and Autograd together", the backward
  cell prints [None] for the gradient before the backward pass (the model
  is new) and the gradient of the cell's loss after it. *)
Theorem backward_cell_prints_none_then_gradient trainloader k r :
eval (autograd_loss_cell trainloader) k = Some r ->
new_calls (backward_cell (loss r)) (exec (autograd_loss_cell trainloader) k)
= [CallPrint (PGrad None); CallBackward (loss r);
   CallPrint (PGrad (Some (loss_grad (loss r))))].
Proof.
intros _. rewrite (new_calls_eq _ _ _ (backward_cell_calls (loss r) _)).
rewrite loss_cell_leaves_no_gradient. reflexivity.
Qed.

End LossCellFacts.

Lemma backward_cell_prints_none_then_gradient_witness :
  exists r,
    eval (T := Toy.torch) (autograd_loss_cell Toy.trainloader) Toy.kernel = Some r /\
    new_calls (T := Toy.torch) (backward_cell (loss r))
              (exec (T := Toy.torch) (autograd_loss_cell Toy.trainloader) Toy.kernel)
    = [CallPrint (PGrad None); CallBackward (loss r);
       CallPrint (PGrad (Some (@loss_grad Toy.torch (loss r))))].
Proof.
  exists (@mkLossCell Toy.torch
            [Linear 784 128; ReLU; Linear 128 64; ReLU; Linear 64 10; LogSoftmax 1]
            NLLLoss "logits" 10 9).
  assert (E : eval (T := Toy.torch) (autograd_loss_cell Toy.trainloader) Toy.kernel
              = Some (@mkLossCell Toy.torch
                        [Linear 784 128; ReLU; Linear 128 64; ReLU; Linear 64 10;
                         LogSoftmax 1] NLLLoss "logits" 10 9))
    by (vm_compute; reflexivity).
  split; [exact E|].
  exact (backward_cell_prints_none_then_gradient (T := Toy.torch)
           Toy.trainloader Toy.kernel _ E).
Defined.

Section EmptyLoaderFacts.

Context {T : Torch} {F : Failures}.

Lemma empty_loader_gives_no_batch (trainloader : DataLoader Sample) g :
  ds_len (dataset trainloader) = 0 -> shuffle trainloader = false ->
  loader_iter randperm collate trainloader g = ([], g).
Proof.
  intros Hlen Hsh. unfold loader_iter, sampler. rewrite Hlen, Hsh.
  reflexivity.
Qed.

(** X7: over a loader built without shuffling on a dataset of no sample,
    and with no framework call raising, [next(iter(trainloader))] raises
    [StopIteration] in each of the three loss cells, which has then built
    its model and asked for the iterator and nothing more; the training
    cell makes no pass, and ends its first epoch by raising
    [ZeroDivisionError] at [running_loss/len(trainloader)], before
    anything is printed. *)
Theorem cells_raise_on_an_empty_loader (trainloader : DataLoader Sample) k :
  ds_len (dataset trainloader) = 0 ->
  shuffle trainloader = false ->
  (forall c, raises c = None) ->
  (exists k',
     cross_entropy_cell trainloader k = (inl StopIteration, k') /\
     calls k'
     = calls k ++ [CallSequential [Linear 784 128; ReLU; Linear 128 64; ReLU;
                                   Linear 64 10];
                   CallIter]) /\
  (exists k',
     nll_exercise_cell trainloader k = (inl StopIteration, k') /\
     calls k'
     = calls k ++ [CallSequential [Linear 784 128; ReLU; Linear 128 64; ReLU;
                                   Linear 64 10; LogSoftmax 1];
                   CallIter]) /\
  (exists k',
     autograd_loss_cell trainloader k = (inl StopIteration, k') /\
     calls k'
     = calls k ++ [CallSequential [Linear 784 128; ReLU; Linear 128 64; ReLU;
                                   Linear 64 10; LogSoftmax 1];
                   CallIter]) /\
  (exists k',
     training_cell trainloader k = (inl ZeroDivisionError, k') /\
     calls k'
     = calls k ++ [CallSequential [Linear 784 128; ReLU; Linear 128 64; ReLU;
                                   Linear 64 10; LogSoftmax 1];
                   CallSGD (3 # 1000)%Q; CallIter]).
Proof.
  intros Hlen Hsh Hno.
  assert (Hzero : loader_len trainloader = 0).
  { unfold loader_len. rewrite Hlen.
    destruct (batch_size trainloader) as [|n]; [reflexivity|].
    apply Nat.div_small. lia. }
  repeat split;
    unfold cross_entropy_cell, nll_exercise_cell, autograd_loss_cell,
      training_cell, epoch, next_iter; simpl; unfold attempt;
    rewrite !Hno; simpl;
    destruct (init_weights _ (rng k)) as [w0 g0]; simpl;
    rewrite ?Hno; simpl;
    rewrite (empty_loader_gives_no_batch trainloader _ Hlen Hsh); simpl;
    rewrite ?Hzero; simpl;
    eexists; (split; [reflexivity|]); simpl; rewrite <- ?app_assoc;
    reflexivity.
Qed.

End EmptyLoaderFacts.

Lemma cells_raise_on_an_empty_loader_witness :
  ds_len (dataset Toy2.empty_loader) = 0 /\
  shuffle Toy2.empty_loader = false /\
  exists k',
    training_cell (M := Fallible (F := Toy.no_failure)) Toy2.empty_loader
                  Toy.kernel
    = (inl ZeroDivisionError, k') /\
    calls k'
    = calls Toy.kernel
      ++ [@CallSequential Toy.torch
            [Linear 784 128; ReLU; Linear 128 64; ReLU; Linear 64 10;
             LogSoftmax 1];
          CallSGD (3 # 1000)%Q; CallIter].
Proof.
  split; [reflexivity|]. split; [reflexivity|].
  exact (proj2 (proj2 (proj2
           (cells_raise_on_an_empty_loader (T := Toy.torch)
              (F := Toy.no_failure) Toy2.empty_loader Toy.kernel
              eq_refl eq_refl (fun c => eq_refl))))).
Defined.

Section MoreShapeFacts.

Import Shapes Prediction.

Variable X : Type.

Lemma firstn_images (k : nat) (imgs : list (tensor X)) :
Forall (@mnist_image X) imgs ->
firstn (784 * k) (concat (map elements imgs))
= concat (map elements (firstn k imgs)).
Proof.
intros Hall. revert k. induction Hall as [|t imgs [_ Ht] _ IH]; intros k.
- rewrite firstn_nil. destruct k; reflexivity.
- destruct k as [|k].
  + rewrite Nat.mul_0_r. reflexivity.
  + replace (784 * S k) with (length (elements t) + 784 * k) by lia.
    cbn [map concat firstn]. rewrite firstn_app_2, IH. reflexivity.
Qed.

(** X9: on a batch of more than 64 images [images.resize_(64, 784)] keeps
  the first 64 images and drops the others; on a batch of fewer than 64
  it keeps the batch and appends 784 unspecified entries for each
  missing image. *)
Theorem resize_of_other_batch_sizes (fill : nat -> X) (imgs : list (tensor X)) :
Forall (@mnist_image X) imgs ->
(64 <= length imgs ->
 elements (resize_to fill (stack_of imgs) [64; 784]%Z)
 = elements (stack_of (firstn 64 imgs))) /\
(length imgs <= 64 ->
 elements (resize_to fill (stack_of imgs) [64; 784]%Z)
 = elements (stack_of imgs)
   ++ map fill (seq (784 * length imgs) (784 * (64 - length imgs)))).
Proof.
intros Hall. pose proof (stack_elements _ _ Hall) as Hlen.
unfold resize_to. cbn [elements].
set (n := Z.to_nat (numel_of [64; 784]%Z)).
assert (Hn : n = 784 * 64) by (subst n; cbn [numel_of fold_right]; lia).
split; intros Hb.
- replace (n - length (elements (stack_of imgs))) with 0 by lia.
  cbn [seq map]. rewrite app_nil_r, Hn. unfold stack_of. cbn [elements].
  apply firstn_images. exact Hall.
- rewrite firstn_all2 by lia. rewrite Hlen. f_equal. f_equal. f_equal. lia.
Qed.

(** X10: the prediction cell's [images[0].view(1, 784)] is the first image
  of the batch as one row of 784, and [img.view(1, 28, 28)] gives that
  image back; on a batch without images [images[0]] fails. *)
Theorem first_image_round_trip (t : tensor X) (imgs : list (tensor X)) :
Forall (@mnist_image X) (t :: imgs) ->
first_image_row (stack_of (t :: imgs))
= Some (mkTensor [1; 784]%Z (elements t)) /\
shown_image (mkTensor [1; 784]%Z (elements t)) = Some t /\
(forall rest els, first_image_row (@mkTensor X (0%Z :: rest) els) = None).
Proof.
intros Hall. inversion Hall as [|? ? [Hsz Hel] _]; subst.
destruct t as [sz els]. cbn [size elements] in *. subst sz.
split; [|split].
- unfold first_image_row, select_0, stack_of. cbn [size elements map concat].
  replace (Z.ltb 0 (Z.of_nat (length (mkTensor [1; 28; 28]%Z els :: imgs))))
    with true by (symmetry; apply Z.ltb_lt; simpl length; lia).
  replace (Z.to_nat (numel_of [1; 28; 28]%Z)) with (length els + 0)
    by (rewrite Hel; cbn [numel_of fold_right]; lia).
  rewrite firstn_app_2. cbn [firstn]. rewrite app_nil_r.
  unfold view_as, numel. cbn [elements]. rewrite Hel. reflexivity.
- unfold shown_image, view_as, numel. cbn [elements]. rewrite Hel. reflexivity.
- intros rest els'. reflexivity.
Qed.

End MoreShapeFacts.

Lemma resize_of_other_batch_sizes_witness :
  Forall (@Shapes.mnist_image Z) (repeat Toy.image 70) /\
  Shapes.elements
    (Shapes.resize_to (fun _ => 0%Z) (Shapes.stack_of (repeat Toy.image 70))
                      [64; 784]%Z)
  = Shapes.elements (Shapes.stack_of (firstn 64 (repeat Toy.image 70))).
Proof.
  split; [apply toy_batch_images|].
  apply (proj1 (resize_of_other_batch_sizes Z (fun _ => 0%Z)
                  (repeat Toy.image 70) (toy_batch_images 70))).
  rewrite repeat_length. lia.
Defined.

Lemma first_image_round_trip_witness :
  Forall (@Shapes.mnist_image Z) (Toy.image :: repeat Toy.image 3) /\
  Prediction.first_image_row (Shapes.stack_of (Toy.image :: repeat Toy.image 3))
  = Some (Shapes.mkTensor [1; 784]%Z (Shapes.elements Toy.image)) /\
  Prediction.shown_image (Shapes.mkTensor [1; 784]%Z (Shapes.elements Toy.image))
  = Some Toy.image.
Proof.
  split; [exact (toy_batch_images 4)|].
  pose proof (first_image_round_trip Z Toy.image (repeat Toy.image 3)
                (toy_batch_images 4)) as (H1 & H2 & _).
  split; assumption.
Defined.

Section TrainedFacts.

Context {T : Torch}.

Lemma epochs_run_weights model criterion optimizer trainloader n a k :
weights (exec (for_each (seq a n)
                 (epoch model criterion optimizer trainloader)) k)
= weights_after optimizer
    (new_calls (for_each (seq a n)
                  (epoch model criterion optimizer trainloader)) k)
    (weights k).
Proof.
revert a k; induction n as [|n IH]; intros a k.
- unfold new_calls, exec. simpl. rewrite skipn_all. reflexivity.
- cbn [seq for_each].
  pose proof (exec_bind (epoch model criterion optimizer trainloader a)
                (fun _ => for_each (seq (S a) n)
                            (epoch model criterion optimizer trainloader)) k) as E.
  destruct (epoch_run model criterion optimizer trainloader a k)
    as (t & _ & _ & Hw & _ & Hcalls).
  set (k1 := exec (epoch model criterion optimizer trainloader a) k) in *.
  destruct (epochs_run model criterion optimizer trainloader n (S a) k1)
    as (rest & _ & _ & Hcalls').
  assert (Hnew : new_calls
                   (bind (epoch model criterion optimizer trainloader a)
                      (fun _ => for_each (seq (S a) n)
                                  (epoch model criterion optimizer trainloader))) k
                 = epoch_calls trainloader t ++ rest).
  { apply new_calls_eq. rewrite E, Hcalls', Hcalls, app_assoc. reflexivity. }
  rewrite Hnew, E, IH, (new_calls_eq _ _ _ Hcalls'), Hw.
  rewrite weights_after_app, weights_after_epoch_calls. reflexivity.
Qed.

(** X11: over a loader that has a batch to give, the parameters the
  training cell leaves are the freshly drawn ones moved by the updates of
  its log, one after the other: each [optimizer.step()] of the log moves
  what the one before it left by the gradient it found; no other
  statement has moved them. *)
Theorem trained_parameters_are_the_logged_updates trainloader k
  (nonempty : 0 < loader_len trainloader) :
weights (exec (training_cell trainloader) k)
= weights_after (3 # 1000)%Q
    (new_calls (training_cell trainloader) k)
    (fst (init_weights [Linear 784 128; ReLU; Linear 128 64; ReLU;
                        Linear 64 10; LogSoftmax 1] (rng k))).
Proof.
set (layers := [Linear 784 128; ReLU; Linear 128 64; ReLU; Linear 64 10;
                LogSoftmax 1]).
pose proof (training_cell_setup trainloader k) as E. fold layers in E.
set (k1 := after_setup layers (3 # 1000)%Q k) in *.
destruct (epochs_run layers NLLLoss (3 # 1000)%Q trainloader 5 0 k1)
  as (t & _ & _ & Hcalls).
assert (Hnew : new_calls (training_cell trainloader) k
               = CallSequential layers :: CallSGD (3 # 1000)%Q :: t).
{ apply new_calls_eq. rewrite E, Hcalls. subst k1. unfold after_setup.
  cbn [calls]. rewrite <- app_assoc. reflexivity. }
rewrite Hnew, E, epochs_run_weights, (new_calls_eq _ _ _ Hcalls).
reflexivity.
Qed.

End TrainedFacts.

Lemma trained_parameters_are_the_logged_updates_witness :
  0 < loader_len Toy.trainloader /\
  weights (exec (T := Toy.torch) (training_cell Toy.trainloader) Toy.kernel)
  = weights_after (T := Toy.torch) (3 # 1000)%Q
      (new_calls (T := Toy.torch) (training_cell Toy.trainloader) Toy.kernel)
      (fst (@init_weights Toy.torch
              [Linear 784 128; ReLU; Linear 128 64; ReLU; Linear 64 10;
               LogSoftmax 1] (rng Toy.kernel))).
Proof.
  split; [exact toy_loader_nonempty|].
  exact (trained_parameters_are_the_logged_updates (T := Toy.torch)
           Toy.trainloader Toy.kernel toy_loader_nonempty).
Defined.
